(** * RideEase: the ride-request lifecycle

    A shallow embedding of the three Express handlers of the driver-facing
    service (list, accept, complete) and of the rider dashboard's
    [handleRequestRide] (both revisions: [app.js] and [_app.js]), over a
    model of the Firestore collection they share.

    What is modelled and what is left out:
    - documents are JavaScript objects: finite maps from field names to
      values; the store maps (collection path, document id) to documents;
    - [console.log]/[console.error] calls are left out: they change neither
      the store nor the response;
    - [new Date()] and [FieldValue.serverTimestamp()] read a clock: the
      instant is an input of the operation;
    - a request body is the object [express.json()] parsed;
    - ids are document ids as Firestore takes them, and its limits on the
      size of a document are not modelled;
    - the order in which Firestore yields the documents of a query is not
      specified by the source; nothing below depends on it. *)

From Stdlib Require Import ZArith.
From stdpp Require Import gmap strings list fin_maps pretty.

Local Open Scope string_scope.

(** ** Values *)

(** JavaScript numbers are IEEE doubles. The handlers never compute with
    them; they test them for truthiness and print them in a template
    literal, so these two operations are the interface. *)
Class JSNumber := {
  number : Type;
  (** [ToBoolean]: false for [+0], [-0] and [NaN]. *)
  number_truthy : number -> bool;
  (** [ToString], as a template literal applies it. *)
  number_to_string : number -> string
}.

(** The values the two programs read and write: the scalars of JSON and
    Firestore's timestamps. A member that is an array or an object is outside
    the model. *)
Inductive value `{JSNumber} : Type :=
| VNull
| VBool (b : bool)
| VNum (n : number)
| VStr (s : string)
| VTime (t : Z).

Abbreviation document := (gmap string value).

(** [Boolean(v)]: what [!v] and [v || w] test. *)
Definition truthy `{JSNumber} (v : value) : bool :=
  match v with
  | VNull => false
  | VBool b => b
  | VNum n => number_truthy n
  | VStr s => negb (String.eqb s "")
  | VTime _ => true
  end.

(** [!x] for a member read off an object: a missing member is [undefined]. *)
Definition js_not `{JSNumber} (x : option value) : bool :=
  match x with
  | None => true
  | Some v => negb (truthy v)
  end.

(** [x || w] with [x] possibly [undefined] and [w] a value. *)
Definition js_or `{JSNumber} (x : option value) (w : value) : value :=
  match x with
  | Some v => if truthy v then v else w
  | None => w
  end.

(** ** The store *)

(** A document is addressed by the path of its collection and its id.
    [outage] is the condition of the backend: [Some m] when its calls are
    rejected with an error whose message is [m]. *)
Record world `{JSNumber} := World {
  docs : gmap (string * string) document;
  outage : option string
}.
Arguments World {_} docs outage.

Definition set_docs `{JSNumber} (w : world) (m : gmap (string * string) document) : world :=
  {| docs := m; outage := outage w |}.

(** An awaited call returns or throws. *)
Inductive outcome (A : Type) : Type :=
| Returned (a : A)
| Thrown (message : string).
Arguments Returned {A} a.
Arguments Thrown {A} message.

Definition io `{JSNumber} (A : Type) : Type := world -> outcome A * world.

#[global] Instance io_ret `{JSNumber} : MRet io :=
  fun A (a : A) w => (Returned a, w).

(** [await m] followed by the rest of the block: a throw skips the rest. *)
#[global] Instance io_bind `{JSNumber} : MBind io :=
  fun A B (k : A -> io B) (m : io A) w =>
    match m w with
    | (Returned a, w') => k a w'
    | (Thrown e, w') => (Thrown e, w')
    end.

(** The text of the error the SDK raises when [update] finds no document is
    not part of the repository; this name stands for it. *)
Definition no_document_message : string := "NOT_FOUND".

(** Modelled from the spec: the Firestore client is an external service;
    section 4.1 gives its operations. [get(riderId)] yields the record or
    its absence. *)
Definition getDoc `{JSNumber} (coll id : string) : io (option document) :=
  fun w =>
    match outage w with
    | Some e => (Thrown e, w)
    | None => (Returned (docs w !! (coll, id)), w)
    end.

(** Modelled from the spec: [put(riderId, record)] inserts or fully replaces
    the record at the key, with no precondition. *)
Definition setDoc `{JSNumber} (coll id : string) (d : document) : io unit :=
  fun w =>
    match outage w with
    | Some e => (Thrown e, w)
    | None => (Returned tt, set_docs w (<[(coll, id) := d]> (docs w)))
    end.

(** Modelled from the spec: [update(riderId, partialFields)] merges the
    given fields into the existing record and fails when there is none. *)
Definition updateDoc `{JSNumber} (coll id : string) (fields : document) : io unit :=
  fun w =>
    match outage w with
    | Some e => (Thrown e, w)
    | None =>
        match docs w !! (coll, id) with
        | Some d => (Returned tt, set_docs w (<[(coll, id) := fields ∪ d]> (docs w)))
        | None => (Thrown no_document_message, w)
        end
    end.

(** [where(field, '==', v)] on a string [v]. *)
Definition field_is `{JSNumber} (field v : string) (d : document) : bool :=
  match d !! field with
  | Some (VStr s) => String.eqb s v
  | _ => false
  end.

Definition in_query `{JSNumber} (coll field v : string)
    (entry : (string * string) * document) : Prop :=
  entry.1.1 = coll ∧ field_is field v entry.2 = true.

#[global] Instance in_query_dec `{JSNumber} coll field v entry :
  Decision (in_query coll field v entry).
Proof. unfold in_query. apply _. Defined.

(** Modelled from the spec: [listWhere(status = pending)] produces the
    records matching at call time, as (id, data) pairs. *)
Definition whereEq `{JSNumber} (coll field v : string) : io (list (string * document)) :=
  fun w =>
    match outage w with
    | Some e => (Thrown e, w)
    | None =>
        (Returned ((fun e : (string * string) * document => (e.1.2, e.2))
                     <$> map_to_list (filter (in_query coll field v) (docs w))), w)
    end.

(** ** The driver-facing service (the Express server) *)

Definition APP_ID : string := "default-app-id".

(** The collection path both programs build:
    [artifacts/${appId}/public/data/rideRequests]. *)
Definition rideRequests (appId : string) : string :=
  "artifacts/" +:+ appId +:+ "/public/data/rideRequests".

(** What [res.json] is given. *)
Inductive payload `{JSNumber} : Type :=
| Rides (rideRequests : list document)
| Message (message rideRequestId : string)
| Failure (error : string) (details : option string).

(** [res.status(code).json(payload)]. *)
Record response `{JSNumber} := Response {
  res_status : nat;
  res_json : payload
}.
Arguments Response {_} res_status res_json.

(** [try { block } catch (error) { handler(error.message) }] around the
    awaited store calls of a handler. *)
Definition try_catch `{JSNumber} (block : io response) (handler : string -> response)
    (w : world) : response * world :=
  match block w with
  | (Returned r, w') => (r, w')
  | (Thrown e, w') => (handler e, w')
  end.

(** The element pushed for one document: [{ id: doc.id, ...doc.data() }].
    The spread comes second, so a member of the data named [id] wins. *)
Definition with_id `{JSNumber} (entry : string * document) : document :=
  entry.2 ∪ {[ "id" := VStr entry.1 ]}.

(** [GET /api/ride-requests]. *)
Definition listPending `{JSNumber} : world -> response * world :=
  try_catch
    (snapshot ← whereEq (rideRequests APP_ID) "status" "pending";
     match snapshot with
     | [] => mret (Response 200 (Rides []))
     | _ => mret (Response 200 (Rides (with_id <$> snapshot)))
     end)
    (fun e => Response 500 (Failure "Failed to fetch ride requests" (Some e))).

(** The object given to [update] on accept. *)
Definition accept_fields `{JSNumber} (now : Z) (driverId driverName driverVehicle : value)
    : document :=
  <["status" := VStr "accepted"]>
    (<["driverId" := driverId]>
       (<["driverName" := driverName]>
          (<["driverVehicle" := driverVehicle]>
             (<["acceptedAt" := VTime now]> ∅)))).

(** [POST /api/ride-requests/:id/accept]. [now] is the instant the server
    gives [serverTimestamp()]. *)
Definition acceptRide `{JSNumber} (now : Z) (rideRequestId : string) (body : document)
    : world -> response * world :=
  match body !! "driverId", body !! "driverName", body !! "driverVehicle" with
  | Some driverId, Some driverName, Some driverVehicle =>
      if negb (truthy driverId) || negb (truthy driverName) || negb (truthy driverVehicle)
      then fun w => (Response 400 (Failure "Driver ID, name, and vehicle are required." None), w)
      else
        try_catch
          (doc ← getDoc (rideRequests APP_ID) rideRequestId;
           match doc with
           | None => mret (Response 404 (Failure "Ride request not found." None))
           | Some _ =>
               _ ← updateDoc (rideRequests APP_ID) rideRequestId
                     (accept_fields now driverId driverName driverVehicle);
               mret (Response 200 (Message "Ride request accepted successfully." rideRequestId))
           end)
          (fun e => Response 500 (Failure "Failed to accept ride request" (Some e)))
  | _, _, _ =>
      fun w => (Response 400 (Failure "Driver ID, name, and vehicle are required." None), w)
  end.

(** The object given to [update] on complete. *)
Definition complete_fields `{JSNumber} (now : Z) : document :=
  <["status" := VStr "completed"]> (<["completedAt" := VTime now]> ∅).

(** [POST /api/ride-requests/:id/complete]. *)
Definition completeRide `{JSNumber} (now : Z) (rideRequestId : string)
    : world -> response * world :=
  try_catch
    (doc ← getDoc (rideRequests APP_ID) rideRequestId;
     match doc with
     | None => mret (Response 404 (Failure "Ride request not found." None))
     | Some _ =>
         _ ← updateDoc (rideRequests APP_ID) rideRequestId (complete_fields now);
         mret (Response 200 (Message "Ride request completed successfully." rideRequestId))
     end)
    (fun e => Response 500 (Failure "Failed to complete ride request" (Some e))).

(** ** The rider dashboard *)

(** [!userId] for the uid of the signed-in user, [null] before sign-in. *)
Definition no_user (userId : option string) : bool :=
  match userId with
  | None => true
  | Some u => String.eqb u ""
  end.

(** [userProfile?.email || 'N/A']. *)
Definition riderEmail `{JSNumber} (userProfile : option document) : value :=
  js_or (userProfile ≫= (fun p => p !! "email")) (VStr "N/A").

(** [app.js]: the first revision, with a placeholder for the pickup. *)
Module App.

(** The record written by [setDoc]. *)
Definition rideRequest `{JSNumber} (userId : string) (userProfile : option document)
    (now : Z) : document :=
  <["riderId" := VStr userId]>
    (<["pickupLocation" := VStr "Current Location (Placeholder)"]>
       (<["destination" := VStr "Destination (Placeholder)"]>
          (<["status" := VStr "pending"]>
             (<["timestamp" := VTime now]>
                (<["riderEmail" := riderEmail userProfile]> ∅))))).

(** The result lists the values given to [setRideRequestStatus], in
    order. [db] tells whether the Firestore handle is set. *)
Definition handleRequestRide `{JSNumber} (app_id : string) (db : bool)
    (userId : option string) (userProfile : option document) (now : Z)
    (w : world) : list string * world :=
  match userId with
  | Some u =>
      if negb db || no_user userId
      then (["Please log in to request a ride."], w)
      else
        match setDoc (rideRequests app_id) u (rideRequest u userProfile now) w with
        | (Returned _, w') =>
            (["Requesting ride...";
              "Ride requested successfully! Waiting for a driver..."], w')
        | (Thrown e, w') =>
            (["Requesting ride..."; "Failed to request ride: " +:+ e], w')
        end
  | None => (["Please log in to request a ride."], w)
  end.

End App.

(** [_app.js]: the revision that reads the browser's position. *)
Module AppGeo.

(** One round of [setSnackbarMessage], [setSnackbarSeverity] and
    [setOpenSnackbar(true)]. *)
Record notification := Notify {
  snackbarSeverity : string;
  snackbarMessage : string
}.

(** What [navigator.geolocation] does with the request. *)
Inductive geolocation `{JSNumber} : Type :=
| Unsupported
| PositionError (code : nat)
| Position (latitude longitude : number).

(** What the snackbar shows once the handler is through: the three state
    variables hold what was set last. *)
Definition shown (raised : list notification) : option notification := last raised.

(** The constants of [GeolocationPositionError]. *)
Definition PERMISSION_DENIED : nat := 1.
Definition POSITION_UNAVAILABLE : nat := 2.
Definition TIMEOUT : nat := 3.

Definition errorMessage (code : nat) : string :=
  if Nat.eqb code PERMISSION_DENIED
  then "Location access denied. Please enable location services for this app."
  else if Nat.eqb code POSITION_UNAVAILABLE
  then "Location information is unavailable."
  else if Nat.eqb code TIMEOUT
  then "The request to get user location timed out."
  else "Unable to retrieve your location.".

(** The record written by [setDoc]. *)
Definition rideRequest `{JSNumber} (userId : string) (userProfile : option document)
    (latitude longitude : number) (now : Z) : document :=
  <["riderId" := VStr userId]>
    (<["pickupLocation" :=
         VStr ("Lat: " +:+ number_to_string latitude +:+
               ", Lng: " +:+ number_to_string longitude)]>
       (<["pickupLatitude" := VNum latitude]>
          (<["pickupLongitude" := VNum longitude]>
             (<["destination" := VStr "Destination (Placeholder)"]>
                (<["status" := VStr "pending"]>
                   (<["timestamp" := VTime now]>
                      (<["riderEmail" := riderEmail userProfile]> ∅))))))).

(** The result lists the notifications raised, in order. *)
Definition handleRequestRide `{JSNumber} (app_id : string) (db : bool)
    (userId : option string) (userProfile : option document)
    (geo : geolocation) (now : Z) (w : world) : list notification * world :=
  match userId with
  | Some u =>
      if negb db || no_user userId
      then ([Notify "error" "Please log in to request a ride."], w)
      else
        match geo with
        | Position latitude longitude =>
            match setDoc (rideRequests app_id) u
                    (rideRequest u userProfile latitude longitude now) w with
            | (Returned _, w') =>
                ([Notify "info" "Getting your location...";
                  Notify "info" "Requesting ride...";
                  Notify "success" "Ride requested successfully! Drivers have been alerted."],
                 w')
            | (Thrown e, w') =>
                ([Notify "info" "Getting your location...";
                  Notify "info" "Requesting ride...";
                  Notify "error" ("Failed to request ride: " +:+ e)], w')
            end
        | PositionError code =>
            ([Notify "info" "Getting your location...";
              Notify "error" ("Geolocation error: " +:+ errorMessage code)], w)
        | Unsupported =>
            ([Notify "info" "Getting your location...";
              Notify "error" "Geolocation is not supported by your browser."], w)
        end
  | None => ([Notify "error" "Please log in to request a ride."], w)
  end.

End AppGeo.

(** ** Accounts and profiles *)

(** What the app reads of a Firebase user: its [uid] and its [email], which
    is null for an anonymous user. *)
Record firebase_user := FirebaseUser {
  uid : string;
  email : option string
}.

(** What the identity provider, an external service, does with a call: it
    resolves with a user or it throws. *)
Inductive auth_outcome : Type :=
| Resolved (user : firebase_user)
| Rejected (message : string).

(** The collection that holds a user's profile:
    [artifacts/${__app_id}/users/${uid}/profile]; the document is [data]. *)
Definition profilePath (appId userId : string) : string :=
  "artifacts/" +:+ appId +:+ "/users/" +:+ userId +:+ "/profile".

(** A string that may be null, as a value. *)
Definition nullable `{JSNumber} (s : option string) : value :=
  match s with
  | Some s => VStr s
  | None => VNull
  end.

(** The [AuthScreen] component. *)
Module AuthScreen.

(** The state [handleSubmit] leaves: [error] and [authLoading]. *)
Record form := Form {
  error : string;
  authLoading : bool
}.

(** The profile written on sign-up. *)
Definition profile `{JSNumber} (user : firebase_user) (now : Z) : document :=
  <["email" := nullable (email user)]> (<["createdAt" := VTime now]> ∅).

(** [handleSubmit]: [provider] is what the one call to the identity
    provider does, [signInWithEmailAndPassword] when [isLogin] and
    [createUserWithEmailAndPassword] otherwise. The component is rendered
    once the Firestore handle is set. [setError('')] comes first, the
    [catch] sets the message, [finally] clears [authLoading]. *)
Definition handleSubmit `{JSNumber} (app_id : string) (isLogin : bool)
    (provider : auth_outcome) (now : Z) (w : world) : form * world :=
  if isLogin
  then
    match provider with
    | Resolved _ => (Form "" false, w)
    | Rejected err => (Form err false, w)
    end
  else
    match provider with
    | Resolved user =>
        match setDoc (profilePath app_id (uid user)) "data" (profile user now) w with
        | (Returned _, w') => (Form "" false, w')
        | (Thrown err, w') => (Form err false, w')
        end
    | Rejected err => (Form err false, w)
    end.

End AuthScreen.

(** ** The system: both programs against one store *)

(** One interaction with the store: a click on the button of either
    revision of the dashboard, a submission of the sign-in form, a request
    to one of the three routes, or a change in the condition of the
    backend. These are all the places where the two programs write. *)
Inductive op `{JSNumber} : Type :=
| RequestRide (app_id : string) (db : bool) (userId : option string)
    (userProfile : option document) (now : Z)
| RequestRideGeo (app_id : string) (db : bool) (userId : option string)
    (userProfile : option document) (geo : AppGeo.geolocation) (now : Z)
| AcceptRide (now : Z) (rideRequestId : string) (body : document)
| CompleteRide (now : Z) (rideRequestId : string)
| ListPending
| Submit (app_id : string) (isLogin : bool) (provider : auth_outcome) (now : Z)
| Backend (condition : option string).

Definition step `{JSNumber} (o : op) (w : world) : world :=
  match o with
  | RequestRide app_id db userId userProfile now =>
      (App.handleRequestRide app_id db userId userProfile now w).2
  | RequestRideGeo app_id db userId userProfile geo now =>
      (AppGeo.handleRequestRide app_id db userId userProfile geo now w).2
  | AcceptRide now id body => (acceptRide now id body w).2
  | CompleteRide now id => (completeRide now id w).2
  | ListPending => (listPending w).2
  | Submit app_id isLogin provider now =>
      (AuthScreen.handleSubmit app_id isLogin provider now w).2
  | Backend condition => World (docs w) condition
  end.

Definition run `{JSNumber} (ops : list op) (w : world) : world :=
  foldl (fun w o => step o w) w ops.

Definition empty_world `{JSNumber} : world := World ∅ None.

(** The states of the store the two programs can bring about. *)
Inductive reachable `{JSNumber} : world -> Prop :=
| reachable_empty : reachable empty_world
| reachable_step o w : reachable w -> reachable (step o w).

(** The status a record shows, when it is one of the three of the model. *)
Definition status_of `{JSNumber} (d : document) : option string :=
  match d !! "status" with
  | Some (VStr s) => Some s
  | _ => None
  end.

(** The four members an accept writes besides the status. *)
Definition driver_fields : list string :=
  ["driverId"; "driverName"; "driverVehicle"; "acceptedAt"].

(** The state machine as the specification words it:
    pending → accepted → completed and nothing else. *)
Definition spec_transition (from to : string) : bool :=
  (String.eqb from "pending" && String.eqb to "accepted")
  || (String.eqb from "accepted" && String.eqb to "completed").

(** The request body a driver client sends. *)
Definition driver_body `{JSNumber} (driverId driverName driverVehicle : string) : document :=
  <["driverId" := VStr driverId]>
    (<["driverName" := VStr driverName]>
       (<["driverVehicle" := VStr driverVehicle]> ∅)).

(** A member the claim on validation calls empty or missing. *)
Definition empty_or_missing `{JSNumber} (x : option value) : Prop :=
  x = None ∨ x = Some (VStr "").

(** The body passes the test [!driverId || !driverName || !driverVehicle]. *)
Definition body_rejected `{JSNumber} (body : document) : bool :=
  js_not (body !! "driverId") || js_not (body !! "driverName")
  || js_not (body !! "driverVehicle").

(** The members the accept route writes for a body that passed. *)
Definition fields_of_body `{JSNumber} (now : Z) (body : document) : document :=
  match body !! "driverId", body !! "driverName", body !! "driverVehicle" with
  | Some driverId, Some driverName, Some driverVehicle =>
      accept_fields now driverId driverName driverVehicle
  | _, _, _ => ∅
  end.

(** What an operation is to the record at a key. *)
Definition accepts `{JSNumber} (o : op) (k : string * string) : Prop :=
  ∃ now body, o = AcceptRide now k.2 body ∧ k.1 = rideRequests APP_ID.

Definition completes `{JSNumber} (o : op) (k : string * string) : Prop :=
  ∃ now, o = CompleteRide now k.2 ∧ k.1 = rideRequests APP_ID.

Definition requests `{JSNumber} (o : op) (k : string * string) : Prop :=
  (∃ app_id db userProfile now,
      o = RequestRide app_id db (Some k.2) userProfile now ∧ k.1 = rideRequests app_id)
  ∨ (∃ app_id db userProfile geo now,
      o = RequestRideGeo app_id db (Some k.2) userProfile geo now
      ∧ k.1 = rideRequests app_id).

(** ** Two requests to the accept route in flight at once

    A handler gives up control at each [await]; the store serves one call
    at a time. So a request to the accept route moves in two steps, the
    [get] and the [update], and the steps of two requests interleave. *)

(** Where a request stands: before its [get], before its [update] with the
    members it will write, or answered. *)
Inductive accept_pc `{JSNumber} : Type :=
| Reading (fields : document)
| Writing (fields : document)
| Replied (r : response).

(** The part of the handler before the first [await]. *)
Definition accept_begin `{JSNumber} (now : Z) (body : document) : accept_pc :=
  if body_rejected body
  then Replied (Response 400 (Failure "Driver ID, name, and vehicle are required." None))
  else Reading (fields_of_body now body).

(** One awaited call of the request [pc], with the [catch] of the handler. *)
Definition accept_next `{JSNumber} (rideRequestId : string) (pc : accept_pc) (w : world)
    : accept_pc * world :=
  match pc with
  | Reading fields =>
      match getDoc (rideRequests APP_ID) rideRequestId w with
      | (Returned None, w') =>
          (Replied (Response 404 (Failure "Ride request not found." None)), w')
      | (Returned (Some _), w') => (Writing fields, w')
      | (Thrown e, w') =>
          (Replied (Response 500 (Failure "Failed to accept ride request" (Some e))), w')
      end
  | Writing fields =>
      match updateDoc (rideRequests APP_ID) rideRequestId fields w with
      | (Returned _, w') =>
          (Replied (Response 200
             (Message "Ride request accepted successfully." rideRequestId)), w')
      | (Thrown e, w') =>
          (Replied (Response 500 (Failure "Failed to accept ride request" (Some e))), w')
      end
  | Replied r => (Replied r, w)
  end.





(** The documents of the server's collection whose status is pending. *)
Definition pending `{JSNumber} (w : world) : gmap (string * string) document :=
  filter (in_query (rideRequests APP_ID) "status" "pending") (docs w).

(** A record as one of the two dashboards writes it. *)
Definition fresh_record `{JSNumber} (d : document) : Prop :=
  (∃ userId userProfile now, d = App.rideRequest userId userProfile now)
  ∨ (∃ userId userProfile latitude longitude now,
       d = AppGeo.rideRequest userId userProfile latitude longitude now).

(** What holds of every record the two programs leave in the store: its
    status is one of the three; while it is pending it has none of the
    members an accept or a complete writes; and it has no member [id]. *)
Definition record_ok `{JSNumber} (d : document) : Prop :=
  (status_of d = Some "pending" ∨ status_of d = Some "accepted"
   ∨ status_of d = Some "completed")
  ∧ (status_of d = Some "pending" →
     ∀ f : string, f ∈ "completedAt" :: driver_fields → d !! f = None)
  ∧ d !! "id" = None.

(** A profile as a sign-up writes it, under the key it is written to. *)
Definition profile_record `{JSNumber} (k : string * string) (d : document) : Prop :=
  ∃ app_id user now,
    k = (profilePath app_id (uid user), "data") ∧ d = AuthScreen.profile user now.

(** What holds of every document the two programs leave in the store: it is
    a ride request, in a collection of ride requests, or a profile. *)
Definition document_ok `{JSNumber} (k : string * string) (d : document) : Prop :=
  ((∃ a, k.1 = rideRequests a) ∧ record_ok d) ∨ profile_record k d.

(** A ride request names its rider, and its driver once it is accepted. *)
Definition names_rider_and_driver `{JSNumber} (k : string * string) (d : document)
    : Prop :=
  ((∃ a, k.1 = rideRequests a) → d !! "riderId" = Some (VStr k.2))
  ∧ (status_of d = Some "accepted" →
     ∀ f : string, f ∈ ["driverId"; "driverName"; "driverVehicle"] →
       ∃ v, d !! f = Some v ∧ truthy v = true).





(** The members an accept writes. *)
Definition accept_members : list string :=
  "status" :: driver_fields.

(** The operations of the driver-facing service, and the backend's own. *)
Definition driver_op `{JSNumber} (o : op) : bool :=
  match o with
  | AcceptRide _ _ _ | CompleteRide _ _ | ListPending | Backend _ => true
  | RequestRide _ _ _ _ _ | RequestRideGeo _ _ _ _ _ _ | Submit _ _ _ _ => false
  end.

(** The profile side of the [Dashboard] component. *)
Module Profile.

(** [userProfile] and [profileLoading]. *)
Record state `{JSNumber} := State {
  userProfile : option document;
  profileLoading : bool
}.
Arguments State {_} userProfile profileLoading.

Definition initial `{JSNumber} : state := State None true.

(** What the listener is called with: a snapshot, with the data when the
    document exists, or an error. *)
Inductive notice `{JSNumber} : Type :=
| Snapshot (data : option document)
| ListenerError.

(** The two callbacks given to [onSnapshot]. *)
Definition onSnapshot `{JSNumber} (n : notice) (st : state) : state :=
  match n with
  | Snapshot (Some data) => State (Some data) false
  | Snapshot None => State None false
  | ListenerError => State (userProfile st) false
  end.

(** Modelled from the spec: [subscribe(key, callback)] calls back at once
    with the current state of the document, or its absence; a backend that
    rejects calls is taken to report an error to the listener. *)
Definition first_notice `{JSNumber} (app_id userId : string) (w : world) : notice :=
  match outage w with
  | None => Snapshot (docs w !! (profilePath app_id userId, "data"))
  | Some _ => ListenerError
  end.

(** The effect that listens to the profile: it returns at once without a
    handle or a user. *)
Definition profileEffect `{JSNumber} (app_id : string) (db : bool)
    (userId : option string) (w : world) (st : state) : state :=
  match userId with
  | Some u =>
      if negb db || no_user userId then st
      else onSnapshot (first_notice app_id u w) st
  | None => st
  end.

End Profile.

(** The [App] component: the state it keeps and the screen it renders. *)
Module Shell.

Record state := State {
  user : option firebase_user;
  loading : bool;
  firebaseInitialized : bool;
  db : bool;
  auth : bool;
  userId : option string
}.

(** The values given to [useState]. *)
Definition initial : state := State None true false false false None.

(** The effect run on mount: when [initializeApp], [getAuth] and
    [getFirestore] go through, the handles are set and the listener is
    registered; when one of them throws, the [catch] clears [loading]. *)
Definition mount (initialized : bool) (st : state) : state :=
  if initialized
  then State (user st) (loading st) true true true (userId st)
  else State (user st) false (firebaseInitialized st) (db st) (auth st) (userId st).

(** The listener given to [onAuthStateChanged], once through.
    [signInFails] tells whether the automatic sign-in (with the custom
    token when there is one, anonymous otherwise) throws. *)
Definition onAuthStateChanged (currentUser : option firebase_user) (signInFails : bool)
    (st : state) : state :=
  match currentUser with
  | Some cu =>
      State (Some cu) false (firebaseInitialized st) (db st) (auth st) (Some (uid cu))
  | None =>
      if signInFails
      then State None false (firebaseInitialized st) (db st) (auth st) None
      else State (user st) false (firebaseInitialized st) (db st) (auth st) (userId st)
  end.

Inductive screen : Type :=
| ShowLoading
| ShowAuthScreen
| ShowDashboard.

(** What [App] returns. *)
Definition render (st : state) : screen :=
  if loading st || negb (firebaseInitialized st) then ShowLoading
  else match user st with
       | None => ShowAuthScreen
       | Some _ => ShowDashboard
       end.

(** The states the component goes through: the listener exists only when
    the initialization went through. *)
Inductive arises : state -> Prop :=
| arises_mount initialized : arises (mount initialized initial)
| arises_change currentUser signInFails st :
    arises st → firebaseInitialized st = true →
    arises (onAuthStateChanged currentUser signInFails st).

End Shell.

(** ** A concrete scenario *)

Module Scenario.

(** Numbers that are integers, printed in decimal as JavaScript prints
    them; enough for coordinates such as 40 and -73. *)
Definition int_number : JSNumber :=
  {| number := Z;
     number_truthy := fun n => negb (Z.eqb n 0);
     number_to_string := fun n => pretty n |}.

#[local] Existing Instance int_number.

Definition alice : document := driver_body "driverA" "Alice" "Civic".
Definition bob : document := driver_body "driverB" "Bob" "Golf".

Definition profile : document := <["email" := VStr "a@x.com"]> ∅.

Definition request : op :=
  RequestRideGeo APP_ID true (Some "rider1") (Some profile)
    (AppGeo.Position 40%Z (-73)%Z) 100.

(** The rider has requested a ride. *)
Definition requested : world := run [request] empty_world.

(** A driver has accepted it. *)
Definition accepted : world := run [AcceptRide 200 "rider1" alice] requested.

(** The ride is over. *)
Definition completed : world := run [CompleteRide 300 "rider1"] accepted.

Definition the_ride : string * string := (rideRequests APP_ID, "rider1").

(** The record at each stage. *)
Definition ride_requested : document :=
  AppGeo.rideRequest "rider1" (Some profile) 40%Z (-73)%Z 100.

Definition ride_accepted : document :=
  accept_fields 200 (VStr "driverA") (VStr "Alice") (VStr "Civic") ∪ ride_requested.

(** A body whose [driverName] is the empty string. *)
Definition nameless : document := driver_body "driverA" "" "Civic".

(** The rider asks again while the ride is on. *)
Definition request_again : op :=
  RequestRide APP_ID true (Some "rider1") (Some profile) 250.

Definition status_in (w : world) : option string :=
  docs w !! the_ride ≫= status_of.




End Scenario.

(** ** The scenario, from sign-up on *)

Module Onboarding.

#[local] Existing Instance Scenario.int_number.

Definition rider : firebase_user := FirebaseUser "rider1" (Some "a@x.com").

(** The rider has signed up in an empty store. *)
Definition signed_up : world :=
  (AuthScreen.handleSubmit APP_ID false (Resolved rider) 50 empty_world).2.

(** The backend has gone down after the request. *)
Definition down : world := step (Backend (Some "UNAVAILABLE")) Scenario.requested.

(** [App] after the provider announced the rider. *)
Definition on_dashboard : Shell.state :=
  Shell.onAuthStateChanged (Some rider) false (Shell.mount true Shell.initial).

(** Where the rider stands. *)
Definition latitude : number := 40%Z.
Definition longitude : number := (-73)%Z.

(** The rider has signed up and then asked for a ride. *)
Definition asked : world :=
  run [Submit APP_ID false (Resolved rider) 50; Scenario.request] empty_world.

(** Alice has taken the ride. *)
Definition taken : world := run [AcceptRide 200 "rider1" Scenario.alice] asked.

(** A dashboard pointed at another app. *)
Definition elsewhere : string := "another-app".

End Onboarding.

(** ** A record the dashboard did not write *)

Module Stray.

#[local] Existing Instance Scenario.int_number.

(** A pending record with a member [id] of its own. *)
Definition record : document :=
  <["status" := VStr "pending"]> (<["id" := VStr "shadow"]> ∅).

(** A store holding it under the key [rider9]. *)
Definition store : world :=
  World (<[(rideRequests APP_ID, "rider9") := record]> ∅) None.

End Stray.

Example scenario_statuses :
  Scenario.status_in Scenario.requested = Some "pending" ∧
  Scenario.status_in Scenario.accepted = Some "accepted" ∧
  Scenario.status_in Scenario.completed = Some "completed".
Proof. vm_compute. auto. Qed.

Example scenario_listing :
  (listPending Scenario.requested).1 =
    Response 200 (Rides [<["id" := VStr "rider1"]> (AppGeo.rideRequest "rider1" (Some Scenario.profile) 40%Z (-73)%Z 100)]).
Proof. vm_cast_no_check (@eq_refl _ (listPending Scenario.requested).1). Qed.

(** * Properties *)

Section Handlers.
Context `{JSNumber}.

Implicit Types (w : world) (d : document) (k : string * string).

(** ** The handlers, one case at a time *)

Lemma js_not_false (x : option value) :
  js_not x = false ↔ ∃ v, x = Some v ∧ truthy v = true.
Proof.
  destruct x as [v|]; simpl.
  - rewrite negb_false_iff. split; [eauto | intros (? & [= <-] & ?); done].
  - split; [done | intros (? & ? & _); done].
Qed.

Lemma empty_or_missing_js_not (x : option value) :
  empty_or_missing x → js_not x = true.
Proof. intros [-> | ->]; reflexivity. Qed.

Lemma body_rejected_false body :
  body_rejected body = false ↔
  ∃ a b c, body !! "driverId" = Some a ∧ body !! "driverName" = Some b ∧
           body !! "driverVehicle" = Some c ∧
           truthy a = true ∧ truthy b = true ∧ truthy c = true.
Proof.
  unfold body_rejected. rewrite !orb_false_iff, !js_not_false. split.
  - intros [[(a & ? & ?) (b & ? & ?)] (c & ? & ?)]. eauto 10.
  - intros (a & b & c & ? & ? & ? & ? & ? & ?). eauto 10.
Qed.

Lemma acceptRide_rejected now id body w :
  body_rejected body = true →
  acceptRide now id body w =
    (Response 400 (Failure "Driver ID, name, and vehicle are required." None), w).
Proof.
  unfold body_rejected, acceptRide, js_not.
  destruct (body !! "driverId"), (body !! "driverName"), (body !! "driverVehicle");
    simpl; try done.
  intros ->. done.
Qed.

Lemma acceptRide_passed now id body w :
  body_rejected body = false →
  acceptRide now id body w =
    match outage w with
    | Some e => (Response 500 (Failure "Failed to accept ride request" (Some e)), w)
    | None =>
        match docs w !! (rideRequests APP_ID, id) with
        | None => (Response 404 (Failure "Ride request not found." None), w)
        | Some d =>
            (Response 200 (Message "Ride request accepted successfully." id),
             set_docs w (<[(rideRequests APP_ID, id) := fields_of_body now body ∪ d]>
                           (docs w)))
        end
    end.
Proof.
  intros Hok. pose proof Hok as (a & b & c & Ha & Hb & Hc & Ta & Tb & Tc)%body_rejected_false.
  unfold acceptRide, fields_of_body. rewrite Ha, Hb, Hc, Ta, Tb, Tc. simpl.
  unfold try_catch, mbind, io_bind, getDoc, updateDoc, mret, io_ret.
  destruct (outage w) eqn:Ho; [done |].
  destruct (docs w !! _) eqn:Hd; [| done].
  simpl. rewrite Ho, Hd. done.
Qed.

Lemma completeRide_cases now id w :
  completeRide now id w =
    match outage w with
    | Some e => (Response 500 (Failure "Failed to complete ride request" (Some e)), w)
    | None =>
        match docs w !! (rideRequests APP_ID, id) with
        | None => (Response 404 (Failure "Ride request not found." None), w)
        | Some d =>
            (Response 200 (Message "Ride request completed successfully." id),
             set_docs w (<[(rideRequests APP_ID, id) := complete_fields now ∪ d]>
                           (docs w)))
        end
    end.
Proof.
  unfold completeRide, try_catch, mbind, io_bind, getDoc, updateDoc, mret, io_ret.
  destruct (outage w) eqn:Ho; [done |].
  destruct (docs w !! _) eqn:Hd; [| done].
  simpl. rewrite Ho, Hd. done.
Qed.

(** ** Validation of the accept body *)

(** C6. An accept whose body lacks one of [driverId], [driverName],
    [driverVehicle], or has it empty, is answered 400 and the store is as
    it was, whatever the id and whatever the store holds. *)
Theorem accept_missing_field_is_400 now id body w :
  empty_or_missing (body !! "driverId")
  ∨ empty_or_missing (body !! "driverName")
  ∨ empty_or_missing (body !! "driverVehicle") →
  acceptRide now id body w =
    (Response 400 (Failure "Driver ID, name, and vehicle are required." None), w).
Proof.
  intros Hbad. apply acceptRide_rejected. unfold body_rejected.
  destruct Hbad as [Hx | [Hx | Hx]]; apply empty_or_missing_js_not in Hx;
    rewrite Hx; simpl; rewrite ?orb_true_r; done.
Qed.

(** ** Unknown ids *)

(** C7. At an id with no record, an accept with a full body and a
    complete are both answered 404 and leave the store as it was. *)
Theorem unknown_id_is_404 now id body w :
  outage w = None →
  body_rejected body = false →
  docs w !! (rideRequests APP_ID, id) = None →
  acceptRide now id body w =
    (Response 404 (Failure "Ride request not found." None), w)
  ∧ completeRide now id w =
    (Response 404 (Failure "Ride request not found." None), w).
Proof.
  intros Ho Hbody Hnone. split.
  - rewrite acceptRide_passed by done. rewrite Ho, Hnone. done.
  - rewrite completeRide_cases, Ho, Hnone. done.
Qed.

(** ** Completion *)

Lemma complete_fields_lookup now f :
  complete_fields now !! f =
    if decide (f = "status") then Some (VStr "completed")
    else if decide (f = "completedAt") then Some (VTime now)
    else None.
Proof.
  unfold complete_fields. repeat case_decide; subst; simplify_map_eq; done.
Qed.

(** C8. A complete on an existing record is answered 200; afterwards the
    record has status completed and [completedAt] set to the server's
    instant, every other member of it is what it was, and so is every
    other record. *)
Theorem complete_changes_two_members now id w d :
  outage w = None →
  docs w !! (rideRequests APP_ID, id) = Some d →
  ∃ d',
    completeRide now id w =
      (Response 200 (Message "Ride request completed successfully." id),
       set_docs w (<[(rideRequests APP_ID, id) := d']> (docs w)))
    ∧ d' !! "status" = Some (VStr "completed")
    ∧ d' !! "completedAt" = Some (VTime now)
    ∧ (∀ f, f ≠ "status" → f ≠ "completedAt" → d' !! f = d !! f)
    ∧ (∀ k, k ≠ (rideRequests APP_ID, id) →
         docs (completeRide now id w).2 !! k = docs w !! k).
Proof.
  intros Ho Hd. exists (complete_fields now ∪ d).
  rewrite completeRide_cases, Ho, Hd. repeat split.
  - rewrite lookup_union, complete_fields_lookup. simpl. by destruct (d !! _).
  - rewrite lookup_union, complete_fields_lookup. simpl. by destruct (d !! _).
  - intros f Hs Hc. rewrite lookup_union, complete_fields_lookup.
    rewrite !decide_False by done. by destruct (d !! f).
  - intros k Hk. simpl. by rewrite lookup_insert_ne.
Qed.

End Handlers.

Section Listing.
Context `{JSNumber}.

Implicit Types (w : world) (d : document) (k : string * string).

Lemma status_of_Some d s : status_of d = Some s ↔ d !! "status" = Some (VStr s).
Proof.
  unfold status_of. destruct (d !! "status") as [[]|]; split; congruence.
Qed.

Lemma field_is_status d s : field_is "status" s d = true ↔ status_of d = Some s.
Proof.
  rewrite status_of_Some. unfold field_is.
  destruct (d !! "status") as [[]|]; try (split; congruence).
  rewrite String.eqb_eq. split; congruence.
Qed.

Lemma pending_lookup w k d :
  pending w !! k = Some d ↔
  docs w !! k = Some d ∧ k.1 = rideRequests APP_ID ∧ status_of d = Some "pending".
Proof.
  unfold pending. rewrite map_lookup_filter_Some. unfold in_query. simpl.
  rewrite field_is_status. tauto.
Qed.

Lemma with_id_lookup id d f : f ≠ "id" → with_id (id, d) !! f = d !! f.
Proof.
  intros Hf. unfold with_id. simpl. rewrite lookup_union.
  rewrite lookup_singleton_ne by done. by destruct (d !! f).
Qed.

Lemma with_id_id id d : d !! "id" = None → with_id (id, d) !! "id" = Some (VStr id).
Proof.
  intros Hnone. unfold with_id. simpl.
  rewrite lookup_union, Hnone, lookup_singleton_eq. done.
Qed.

Lemma listPending_cases w :
  listPending w =
    match outage w with
    | Some e => (Response 500 (Failure "Failed to fetch ride requests" (Some e)), w)
    | None =>
        (Response 200
           (Rides ((fun e : (string * string) * document => with_id (e.1.2, e.2))
                     <$> map_to_list (pending w))), w)
    end.
Proof.
  unfold listPending, try_catch, mbind, io_bind, whereEq, mret, io_ret, pending.
  destruct (outage w); [done |].
  rewrite <- list_fmap_compose.
  destruct (map_to_list _); done.
Qed.

(** The listing never writes. *)
Lemma listPending_world w : (listPending w).2 = w.
Proof. rewrite listPending_cases. by destruct (outage w). Qed.

(** What the listing answers with, in terms of the store. *)
Lemma listing_is_the_pending_records_aux w :
  outage w = None →
  ∃ l,
    listPending w = (Response 200 (Rides l), w)
    ∧ (∀ e, e ∈ l →
         ∃ id d, docs w !! (rideRequests APP_ID, id) = Some d
                 ∧ status_of d = Some "pending" ∧ e = with_id (id, d))
    ∧ (pending w = ∅ → l = []).
Proof.
  intros Ho. eexists. rewrite listPending_cases, Ho. split; [reflexivity |]. split.
  - intros e ([[c id] d] & -> & Hel)%list_elem_of_fmap.
    apply elem_of_map_to_list, pending_lookup in Hel as (Hd & Hc & Hs).
    simpl in *. subst c. eauto.
  - intros ->. by rewrite map_to_list_empty.
Qed.


(** With nothing pending the answer is 200 and an empty array. *)
Lemma listPending_nothing w :
  outage w = None → pending w = ∅ →
  listPending w = (Response 200 (Rides []), w).
Proof.
  intros Ho He. rewrite listPending_cases, Ho, He, map_to_list_empty. done.
Qed.

End Listing.

Section Dashboard.
Context `{JSNumber}.

Implicit Types (w : world) (d : document) (k : string * string).

Lemma no_user_false u : u ≠ "" → no_user (Some u) = false.
Proof. intros Hu. simpl. by apply String.eqb_neq. Qed.

Lemma App_rideRequest_lookup u p now f :
  App.rideRequest u p now !! f =
    if decide (f = "riderId") then Some (VStr u)
    else if decide (f = "pickupLocation") then Some (VStr "Current Location (Placeholder)")
    else if decide (f = "destination") then Some (VStr "Destination (Placeholder)")
    else if decide (f = "status") then Some (VStr "pending")
    else if decide (f = "timestamp") then Some (VTime now)
    else if decide (f = "riderEmail") then Some (riderEmail p)
    else None.
Proof.
  unfold App.rideRequest. repeat case_decide; subst; simplify_map_eq; done.
Qed.

Lemma AppGeo_rideRequest_lookup u p lat lng now f :
  AppGeo.rideRequest u p lat lng now !! f =
    if decide (f = "riderId") then Some (VStr u)
    else if decide (f = "pickupLocation")
    then Some (VStr ("Lat: " +:+ number_to_string lat +:+
                     ", Lng: " +:+ number_to_string lng))
    else if decide (f = "pickupLatitude") then Some (VNum lat)
    else if decide (f = "pickupLongitude") then Some (VNum lng)
    else if decide (f = "destination") then Some (VStr "Destination (Placeholder)")
    else if decide (f = "status") then Some (VStr "pending")
    else if decide (f = "timestamp") then Some (VTime now)
    else if decide (f = "riderEmail") then Some (riderEmail p)
    else None.
Proof.
  unfold AppGeo.rideRequest. repeat case_decide; subst; simplify_map_eq; done.
Qed.

Lemma App_request_done app_id u p now w :
  outage w = None → u ≠ "" →
  App.handleRequestRide app_id true (Some u) p now w =
    (["Requesting ride..."; "Ride requested successfully! Waiting for a driver..."],
     set_docs w (<[(rideRequests app_id, u) := App.rideRequest u p now]> (docs w))).
Proof.
  intros Ho Hu. unfold App.handleRequestRide, setDoc.
  rewrite no_user_false, Ho by done. done.
Qed.

Lemma AppGeo_request_done app_id u p lat lng now w :
  outage w = None → u ≠ "" →
  AppGeo.handleRequestRide app_id true (Some u) p (AppGeo.Position lat lng) now w =
    ([AppGeo.Notify "info" "Getting your location...";
      AppGeo.Notify "info" "Requesting ride...";
      AppGeo.Notify "success" "Ride requested successfully! Drivers have been alerted."],
     set_docs w (<[(rideRequests app_id, u) := AppGeo.rideRequest u p lat lng now]>
                   (docs w))).
Proof.
  intros Ho Hu. unfold AppGeo.handleRequestRide, setDoc.
  rewrite no_user_false, Ho by done. done.
Qed.

Lemma riderEmail_of_profile (p : option document) v :
  p ≫= (fun d => d !! "email") = Some v → truthy v = true → riderEmail p = v.
Proof. unfold riderEmail, js_or. by intros -> ->. Qed.

Lemma riderEmail_default (p : option document) :
  js_not (p ≫= (fun d => d !! "email")) = true → riderEmail p = VStr "N/A".
Proof.
  unfold riderEmail, js_or, js_not. destruct (p ≫= _) as [v|]; [| done].
  by intros ->%negb_true_iff.
Qed.

(** C4. For a signed-in rider and a store that answers, a request in
    either revision of the dashboard (in [_app.js], once the position is
    known) ends with the success message, whatever the store held at the
    rider's key; a [get] at that key then yields the record just built:
    status pending, the rider's id, the pickup, the placeholder
    destination, the instant, the e-mail of the rider's profile (the text
    N/A when the profile has none) and in [_app.js] the coordinates, and no
    [driverId], [driverName], [driverVehicle], [acceptedAt] or
    [completedAt]. *)
Theorem request_replaces_with_fresh_pending app_id u p lat lng now w :
  outage w = None → u ≠ "" →
  let r0 := App.rideRequest u p now in
  let r1 := AppGeo.rideRequest u p lat lng now in
  let run0 := App.handleRequestRide app_id true (Some u) p now w in
  let run1 :=
    AppGeo.handleRequestRide app_id true (Some u) p (AppGeo.Position lat lng) now w in
  (last run0.1 = Some "Ride requested successfully! Waiting for a driver..."
   ∧ getDoc (rideRequests app_id) u run0.2 = (Returned (Some r0), run0.2))
  ∧ (last run1.1 =
       Some (AppGeo.Notify "success"
               "Ride requested successfully! Drivers have been alerted.")
     ∧ getDoc (rideRequests app_id) u run1.2 = (Returned (Some r1), run1.2))
  ∧ (status_of r0 = Some "pending" ∧ status_of r1 = Some "pending")
  ∧ (r0 !! "riderId" = Some (VStr u) ∧ r1 !! "riderId" = Some (VStr u))
  ∧ (r0 !! "destination" = Some (VStr "Destination (Placeholder)")
     ∧ r1 !! "destination" = Some (VStr "Destination (Placeholder)"))
  ∧ (r0 !! "timestamp" = Some (VTime now) ∧ r1 !! "timestamp" = Some (VTime now))
  ∧ (r0 !! "riderEmail" = Some (riderEmail p) ∧ r1 !! "riderEmail" = Some (riderEmail p))
  ∧ (r1 !! "pickupLatitude" = Some (VNum lat) ∧ r1 !! "pickupLongitude" = Some (VNum lng))
  ∧ (∀ f : string, f ∈ "completedAt" :: driver_fields → r0 !! f = None ∧ r1 !! f = None)
  ∧ (∀ v, p ≫= (fun d => d !! "email") = Some v → truthy v = true →
       r0 !! "riderEmail" = Some v ∧ r1 !! "riderEmail" = Some v)
  ∧ (js_not (p ≫= (fun d => d !! "email")) = true →
     r0 !! "riderEmail" = Some (VStr "N/A") ∧ r1 !! "riderEmail" = Some (VStr "N/A"))
  ∧ (r0 !! "pickupLocation" = Some (VStr "Current Location (Placeholder)")
     ∧ r1 !! "pickupLocation" =
         Some (VStr ("Lat: " +:+ number_to_string lat +:+
                     ", Lng: " +:+ number_to_string lng))).
Proof.
  intros Ho Hu r0 r1 run0 run1.
  subst run0 run1. rewrite App_request_done, AppGeo_request_done by done.
  subst r0 r1. unfold getDoc, status_of. simpl. rewrite Ho, !lookup_insert_eq.
  rewrite !App_rideRequest_lookup, !AppGeo_rideRequest_lookup. simpl.
  repeat split; try done.
  all: rewrite ?App_rideRequest_lookup, ?AppGeo_rideRequest_lookup.
  all: try (by simpl; erewrite riderEmail_of_profile by done).
  all: try (by simpl; rewrite riderEmail_default by done).
  all: unfold driver_fields in *;
    repeat match goal with
           | Hf : _ ∈ _ :: _ |- _ => apply elem_of_cons in Hf as [-> | Hf]
           | Hf : _ ∈ [] |- _ => by apply elem_of_nil in Hf
           end; done.
Qed.

(** C10. In [_app.js], when the browser has no geolocation or the
    position request fails, with whatever code, the handler never calls
    [setDoc]: the store is as it was, and what the snackbar ends up showing
    is an error notice (raised after the notice that the position is being
    read, or alone when nobody is signed in). *)
Theorem no_position_no_write app_id db userId p now w :
  let unsupported :=
    AppGeo.handleRequestRide app_id db userId p AppGeo.Unsupported now w in
  (unsupported.2 = w
   ∧ AppGeo.snackbarSeverity <$> AppGeo.shown unsupported.1 = Some "error"
   ∧ unsupported.1 =
       if negb db || no_user userId
       then [AppGeo.Notify "error" "Please log in to request a ride."]
       else [AppGeo.Notify "info" "Getting your location...";
             AppGeo.Notify "error" "Geolocation is not supported by your browser."])
  ∧ ∀ code,
      let failed :=
        AppGeo.handleRequestRide app_id db userId p (AppGeo.PositionError code) now w in
      failed.2 = w
      ∧ AppGeo.snackbarSeverity <$> AppGeo.shown failed.1 = Some "error"
      ∧ failed.1 =
          if negb db || no_user userId
          then [AppGeo.Notify "error" "Please log in to request a ride."]
          else [AppGeo.Notify "info" "Getting your location...";
                AppGeo.Notify "error"
                  ("Geolocation error: " +:+ AppGeo.errorMessage code)].
Proof.
  unfold AppGeo.handleRequestRide.
  destruct userId as [u|]; simpl; [| by rewrite orb_true_r].
  destruct (negb db || String.eqb u ""); done.
Qed.

End Dashboard.

(** ** Paths of collections *)

Section Paths.

Lemma list_ascii_of_string_app (s t : string) :
  String.list_ascii_of_string (s +:+ t)
  = (String.list_ascii_of_string s ++ String.list_ascii_of_string t)%list.
Proof. induction s as [| a s IH]; simpl; [done | by rewrite IH]. Qed.

Lemma string_app_inv_tail (s1 s2 t : string) : s1 +:+ t = s2 +:+ t → s1 = s2.
Proof.
  intros Heq%(f_equal String.list_ascii_of_string).
  rewrite !list_ascii_of_string_app in Heq. apply app_inv_tail in Heq.
  apply (f_equal String.string_of_list_ascii) in Heq.
  by rewrite !String.string_of_list_ascii_of_string in Heq.
Qed.

(** Two app ids give two collections of ride requests. *)
Lemma rideRequests_inj (a b : string) : rideRequests a = rideRequests b → a = b.
Proof.
  unfold rideRequests. intros Heq%(inj (String.app "artifacts/")).
  by apply string_app_inv_tail in Heq.
Qed.

Lemma last_char_app (s t : string) :
  t ≠ "" →
  last (String.list_ascii_of_string (s +:+ t)) = last (String.list_ascii_of_string t).
Proof.
  intros Ht. rewrite list_ascii_of_string_app, last_app.
  destruct t as [| c t]; [done |]. simpl.
  destruct (last (c :: String.list_ascii_of_string t)) eqn:Hl; [done |].
  by apply last_None in Hl.
Qed.

(** No profile lives in a collection of ride requests: the two paths end
    differently. *)
Lemma profilePath_not_rideRequests (a u b : string) : profilePath a u ≠ rideRequests b.
Proof.
  intros Heq%(f_equal (fun s => last (String.list_ascii_of_string s))).
  unfold profilePath, rideRequests in Heq.
  rewrite !last_char_app in Heq by (by destruct a, u, b).
  vm_compute in Heq. discriminate.
Qed.

End Paths.

Section System.
Context `{JSNumber}.

Implicit Types (w : world) (d : document) (k : string * string) (o : op).

Lemma accept_fields_lookup now a b c f :
  accept_fields now a b c !! f =
    if decide (f = "status") then Some (VStr "accepted")
    else if decide (f = "driverId") then Some a
    else if decide (f = "driverName") then Some b
    else if decide (f = "driverVehicle") then Some c
    else if decide (f = "acceptedAt") then Some (VTime now)
    else None.
Proof.
  unfold accept_fields. repeat case_decide; subst; simplify_map_eq; done.
Qed.

Lemma fields_of_body_lookup now body f :
  body_rejected body = false →
  fields_of_body now body !! f =
    if decide (f = "status") then Some (VStr "accepted")
    else if decide (f = "driverId") then body !! "driverId"
    else if decide (f = "driverName") then body !! "driverName"
    else if decide (f = "driverVehicle") then body !! "driverVehicle"
    else if decide (f = "acceptedAt") then Some (VTime now)
    else None.
Proof.
  intros (a & b & c & Ha & Hb & Hc & _)%body_rejected_false.
  unfold fields_of_body. rewrite Ha, Hb, Hc. apply accept_fields_lookup.
Qed.

(** ** What one operation does to one record *)

Lemma App_request_lookup app_id db userId p now w k :
  docs (App.handleRequestRide app_id db userId p now w).2 !! k = docs w !! k
  ∨ (userId = Some k.2 ∧ k.1 = rideRequests app_id
     ∧ docs (App.handleRequestRide app_id db userId p now w).2 !! k
       = Some (App.rideRequest k.2 p now)).
Proof.
  unfold App.handleRequestRide, setDoc.
  destruct userId as [u|]; [| by left].
  destruct (negb db || no_user (Some u)); [by left |].
  destruct (outage w); [by left |]. simpl.
  destruct (decide (k = (rideRequests app_id, u))) as [-> | Hk].
  - right. simpl. by rewrite lookup_insert_eq.
  - left. by rewrite lookup_insert_ne.
Qed.

Lemma AppGeo_request_lookup app_id db userId p geo now w k :
  docs (AppGeo.handleRequestRide app_id db userId p geo now w).2 !! k = docs w !! k
  ∨ (userId = Some k.2 ∧ k.1 = rideRequests app_id
     ∧ ∃ lat lng,
         docs (AppGeo.handleRequestRide app_id db userId p geo now w).2 !! k
         = Some (AppGeo.rideRequest k.2 p lat lng now)).
Proof.
  unfold AppGeo.handleRequestRide, setDoc.
  destruct userId as [u|]; [| by left].
  destruct (negb db || no_user (Some u)); [by left |].
  destruct geo as [| code | lat lng]; [by left | by left |].
  destruct (outage w); [by left |]. simpl.
  destruct (decide (k = (rideRequests app_id, u))) as [-> | Hk].
  - right. simpl. rewrite lookup_insert_eq. eauto.
  - left. by rewrite lookup_insert_ne.
Qed.

Lemma acceptRide_lookup now id body w k :
  docs (acceptRide now id body w).2 !! k = docs w !! k
  ∨ (k = (rideRequests APP_ID, id) ∧ body_rejected body = false
     ∧ ∃ d, docs w !! k = Some d
            ∧ docs (acceptRide now id body w).2 !! k
              = Some (fields_of_body now body ∪ d)).
Proof.
  destruct (body_rejected body) eqn:Hb.
  { left. by rewrite acceptRide_rejected. }
  rewrite acceptRide_passed by done.
  destruct (outage w); [by left |].
  destruct (docs w !! (rideRequests APP_ID, id)) as [d|] eqn:Hd; [| by left].
  simpl. destruct (decide (k = (rideRequests APP_ID, id))) as [-> | Hk].
  - right. rewrite lookup_insert_eq. eauto.
  - left. by rewrite lookup_insert_ne.
Qed.

Lemma completeRide_lookup now id w k :
  docs (completeRide now id w).2 !! k = docs w !! k
  ∨ (k = (rideRequests APP_ID, id)
     ∧ ∃ d, docs w !! k = Some d
            ∧ docs (completeRide now id w).2 !! k = Some (complete_fields now ∪ d)).
Proof.
  rewrite completeRide_cases.
  destruct (outage w); [by left |].
  destruct (docs w !! (rideRequests APP_ID, id)) as [d|] eqn:Hd; [| by left].
  simpl. destruct (decide (k = (rideRequests APP_ID, id))) as [-> | Hk].
  - right. rewrite lookup_insert_eq. eauto.
  - left. by rewrite lookup_insert_ne.
Qed.

Lemma handleSubmit_lookup app_id isLogin provider now w k :
  docs (AuthScreen.handleSubmit app_id isLogin provider now w).2 !! k = docs w !! k
  ∨ (∃ user, isLogin = false ∧ provider = Resolved user
       ∧ k = (profilePath app_id (uid user), "data")
       ∧ docs (AuthScreen.handleSubmit app_id isLogin provider now w).2 !! k
         = Some (AuthScreen.profile user now)).
Proof.
  unfold AuthScreen.handleSubmit, setDoc.
  destruct isLogin; [by destruct provider; left |].
  destruct provider as [user | err]; [| by left].
  destruct (outage w); [by left |]. simpl.
  destruct (decide (k = (profilePath app_id (uid user), "data"))) as [-> | Hk].
  - right. exists user. by rewrite lookup_insert_eq.
  - left. by rewrite lookup_insert_ne.
Qed.

(** After any operation the document at a key is what it was, or what an
    accept, a complete or a request at that key made of it, or the profile
    a sign-up wrote there. *)
Lemma step_lookup o w k :
  docs (step o w) !! k = docs w !! k
  ∨ (accepts o k
     ∧ ∃ now body d, o = AcceptRide now k.2 body ∧ body_rejected body = false
         ∧ docs w !! k = Some d
         ∧ docs (step o w) !! k = Some (fields_of_body now body ∪ d))
  ∨ (completes o k
     ∧ ∃ now d, docs w !! k = Some d
         ∧ docs (step o w) !! k = Some (complete_fields now ∪ d))
  ∨ (requests o k
     ∧ ∃ fresh, fresh_record fresh ∧ docs (step o w) !! k = Some fresh)
  ∨ (∃ app_id user now, o = Submit app_id false (Resolved user) now
       ∧ k = (profilePath app_id (uid user), "data")
       ∧ docs (step o w) !! k = Some (AuthScreen.profile user now)).
Proof.
  destruct o as [app_id db userId p now | app_id db userId p geo now
                | now id body | now id | | app_id isLogin provider now
                | condition]; simpl.
  - destruct (App_request_lookup app_id db userId p now w k)
      as [? | (-> & Hc & Hd)]; [by left |].
    right; right; right; left. split.
    + left. eauto 10.
    + eexists. split; [| exact Hd]. left. eauto.
  - destruct (AppGeo_request_lookup app_id db userId p geo now w k)
      as [? | (-> & Hc & lat & lng & Hd)]; [by left |].
    right; right; right; left. split.
    + right. eauto 10.
    + eexists. split; [| exact Hd]. right. eauto 10.
  - destruct (acceptRide_lookup now id body w k) as [? | (-> & Hb & d & Hd & Hd')];
      [by left |].
    right; left. split; [by eexists _, _ |]. eauto 10.
  - destruct (completeRide_lookup now id w k) as [? | (-> & d & Hd & Hd')];
      [by left |].
    right; right; left. split; [by eexists |]. eauto.
  - left. by rewrite listPending_world.
  - destruct (handleSubmit_lookup app_id isLogin provider now w k)
      as [? | (user & -> & -> & -> & Hd)]; [by left |].
    right; right; right; right. eauto 10.
  - by left.
Qed.

Lemma ride_key_not_profile k d :
  (∃ a, k.1 = rideRequests a) → profile_record k d → False.
Proof.
  intros [a Ha] (app_id & user & now & -> & _). simpl in Ha.
  by apply profilePath_not_rideRequests in Ha.
Qed.

(** The same for a key in a collection of ride requests, where no sign-up
    writes. *)
Lemma step_lookup_ride o w a id :
  docs (step o w) !! (rideRequests a, id) = docs w !! (rideRequests a, id)
  ∨ (accepts o (rideRequests a, id)
     ∧ ∃ now body d, o = AcceptRide now id body ∧ body_rejected body = false
         ∧ docs w !! (rideRequests a, id) = Some d
         ∧ docs (step o w) !! (rideRequests a, id) = Some (fields_of_body now body ∪ d))
  ∨ (completes o (rideRequests a, id)
     ∧ ∃ now d, docs w !! (rideRequests a, id) = Some d
         ∧ docs (step o w) !! (rideRequests a, id) = Some (complete_fields now ∪ d))
  ∨ (requests o (rideRequests a, id)
     ∧ ∃ fresh, fresh_record fresh
         ∧ docs (step o w) !! (rideRequests a, id) = Some fresh).
Proof.
  destruct (step_lookup o w (rideRequests a, id))
    as [? | [? | [? | [? | (app_id & user & now & _ & Hk & _)]]]]; auto.
  apply (f_equal fst) in Hk. simpl in Hk. symmetry in Hk.
  by apply profilePath_not_rideRequests in Hk.
Qed.

(** ** What holds of every document in a reachable store *)

Lemma record_ok_fresh d : fresh_record d → record_ok d.
Proof.
  intros [(u & p & now & ->) | (u & p & lat & lng & now & ->)];
    unfold record_ok, status_of;
    rewrite ?App_rideRequest_lookup, ?AppGeo_rideRequest_lookup; simpl.
  all: split; [by left |]; split; [| done].
  all: intros _ f Hf; rewrite ?App_rideRequest_lookup, ?AppGeo_rideRequest_lookup.
  all: unfold driver_fields in Hf;
    repeat match goal with
           | Hf : _ ∈ _ :: _ |- _ => apply elem_of_cons in Hf as [-> | Hf]
           | Hf : _ ∈ [] |- _ => by apply elem_of_nil in Hf
           end; done.
Qed.

Lemma record_ok_accept now body d :
  body_rejected body = false → record_ok d → record_ok (fields_of_body now body ∪ d).
Proof.
  intros Hb (_ & _ & Hid).
  assert (Hs : status_of (fields_of_body now body ∪ d) = Some "accepted").
  { apply status_of_Some. rewrite lookup_union, fields_of_body_lookup by done.
    simpl. by destruct (d !! "status"). }
  split; [auto |]. split; [by rewrite Hs |].
  rewrite lookup_union, fields_of_body_lookup, Hid by done. done.
Qed.

Lemma record_ok_complete now d :
  record_ok d → record_ok (complete_fields now ∪ d).
Proof.
  intros (_ & _ & Hid).
  assert (Hs : status_of (complete_fields now ∪ d) = Some "completed").
  { apply status_of_Some. rewrite lookup_union, complete_fields_lookup.
    simpl. by destruct (d !! "status"). }
  split; [auto |]. split; [by rewrite Hs |].
  rewrite lookup_union, complete_fields_lookup, Hid. done.
Qed.

(** Every document of a reachable store is a ride request in a collection
    of ride requests or a profile under a user's path. *)
Lemma reachable_documents_ok w :
  reachable w → ∀ k d, docs w !! k = Some d → document_ok k d.
Proof.
  induction 1 as [| o w Hw IH]; intros k d' Hd'.
  - unfold empty_world in Hd'. simpl in Hd'. by rewrite lookup_empty in Hd'.
  - destruct (step_lookup o w k)
      as [Heq | [(Ha & now & body & d & _ & Hb & Hd & Heq)
                | [(Hc & now & d & Hd & Heq)
                  | [(Hr & fresh & Hf & Heq)
                    | (app_id & user & now & _ & Hk & Heq)]]]];
      rewrite Heq in Hd'.
    + eauto.
    + injection Hd' as <-. destruct Ha as (_ & _ & _ & Hk).
      destruct (IH k d Hd) as [[_ Hok] | Hp].
      * left. split; [eauto |]. by apply record_ok_accept.
      * destruct (ride_key_not_profile k d); eauto.
    + injection Hd' as <-. destruct Hc as (_ & _ & Hk).
      destruct (IH k d Hd) as [[_ Hok] | Hp].
      * left. split; [eauto |]. by apply record_ok_complete.
      * destruct (ride_key_not_profile k d); eauto.
    + injection Hd' as <-. left. split; [| by apply record_ok_fresh].
      destruct Hr as [(a & ? & ? & ? & _ & Hk) | (a & ? & ? & ? & ? & _ & Hk)]; eauto.
    + injection Hd' as <-. right. unfold profile_record. eauto 10.
Qed.

Lemma reachable_records_ok w :
  reachable w →
  ∀ a id d, docs w !! (rideRequests a, id) = Some d → record_ok d.
Proof.
  intros Hw a id d Hd.
  destruct (reachable_documents_ok w Hw _ d Hd) as [[_ Hok] | Hp]; [done |].
  destruct (ride_key_not_profile (rideRequests a, id) d); eauto.
Qed.

Lemma run_reachable ops w : reachable w → reachable (run ops w).
Proof.
  revert w. induction ops as [| o ops IH]; intros w Hw; [done |].
  apply IH. by constructor.
Qed.

End System.

Section Lifecycle.
Context `{JSNumber}.

Implicit Types (w : world) (d : document) (k : string * string) (o : op).


Lemma fresh_record_status d : fresh_record d → status_of d = Some "pending".
Proof.
  intros [(u & p & now & ->) | (u & p & lat & lng & now & ->)];
    unfold status_of;
    rewrite ?App_rideRequest_lookup, ?AppGeo_rideRequest_lookup; done.
Qed.

(** C1, as the code has it. In a store the two programs produced,
    sign-ups included, every ride request has one of the three statuses,
    no operation removes it, and an operation either leaves it as it was
    or sets its status without looking at the one it had: an accept at its
    key sets accepted, a complete sets completed, a request replaces it by
    a pending one. Whenever the store answers, an accept with a full body
    and a complete are answered 200 and do so from any status. *)
Theorem status_is_set_whatever_it_was o w a id d :
  reachable w → docs w !! (rideRequests a, id) = Some d →
  (status_of d = Some "pending" ∨ status_of d = Some "accepted"
   ∨ status_of d = Some "completed")
  ∧ (∃ d', docs (step o w) !! (rideRequests a, id) = Some d'
       ∧ (d' = d
          ∨ (accepts o (rideRequests a, id) ∧ status_of d' = Some "accepted")
          ∨ (completes o (rideRequests a, id) ∧ status_of d' = Some "completed")
          ∨ (requests o (rideRequests a, id) ∧ status_of d' = Some "pending")))
  ∧ (outage w = None → a = APP_ID →
     (∀ now body, body_rejected body = false →
        res_status (acceptRide now id body w).1 = 200
        ∧ docs (acceptRide now id body w).2 !! (rideRequests a, id) ≫= status_of
          = Some "accepted")
     ∧ (∀ now,
        res_status (completeRide now id w).1 = 200
        ∧ docs (completeRide now id w).2 !! (rideRequests a, id) ≫= status_of
          = Some "completed")).
Proof.
  intros Hw Hd. split; [| split].
  - by destruct (reachable_records_ok w Hw a id d Hd) as (? & _).
  - destruct (step_lookup_ride o w a id)
      as [Heq | [(Ha & now & body & d0 & _ & Hb & Hd0 & Heq)
                | [(Hc & now & d0 & Hd0 & Heq) | (Hr & fresh & Hf & Heq)]]];
      rewrite Heq.
    + eauto.
    + eexists. split; [done |]. right; left. split; [done |].
      apply status_of_Some. rewrite lookup_union, fields_of_body_lookup by done.
      simpl. by destruct (d0 !! "status").
    + eexists. split; [done |]. right; right; left. split; [done |].
      apply status_of_Some. rewrite lookup_union, complete_fields_lookup.
      simpl. by destruct (d0 !! "status").
    + eexists. split; [done |]. right; right; right. split; [done |].
      by apply fresh_record_status.
  - intros Ho ->. split.
    + intros now body Hb. rewrite acceptRide_passed, Ho, Hd by done. simpl.
      split; [done |]. rewrite lookup_insert_eq. simpl.
      apply status_of_Some. rewrite lookup_union, fields_of_body_lookup by done.
      simpl. by destruct (d !! "status").
    + intros now. rewrite completeRide_cases, Ho, Hd. simpl.
      split; [done |]. rewrite lookup_insert_eq. simpl.
      apply status_of_Some. rewrite lookup_union, complete_fields_lookup.
      simpl. by destruct (d !! "status").
Qed.


Lemma with_id_own_or_key id d :
  with_id (id, d) !! "id" = Some (default (VStr id) (d !! "id")).
Proof.
  unfold with_id. simpl. rewrite lookup_union.
  destruct (d !! "id"); simpl; by rewrite ?lookup_singleton_eq.
Qed.

(** C9, as the code has it. Whenever the store answers, the listing is
    answered 200, with an empty array when nothing is pending. Every
    pending record of the collection has its element, and every element
    is such a record with one member more or replaced, [id]: it holds the
    key the record is stored under unless the record has a member [id] of
    its own, which comes second in the spread and wins. All other
    members are the record's. In a store the two programs produced,
    sign-ups included, no ride request has such a member and [id] is the
    key. *)
Theorem listing_id_is_the_key_unless_shadowed w :
  outage w = None →
  ∃ l,
    listPending w = (Response 200 (Rides l), w)
    ∧ (∀ id d, docs w !! (rideRequests APP_ID, id) = Some d →
         status_of d = Some "pending" →
         ∃ e, e ∈ l
              ∧ e !! "id" = Some (default (VStr id) (d !! "id"))
              ∧ (∀ f, f ≠ "id" → e !! f = d !! f)
              ∧ (reachable w → e !! "id" = Some (VStr id)))
    ∧ (∀ e, e ∈ l →
         ∃ id d, docs w !! (rideRequests APP_ID, id) = Some d
                 ∧ e !! "id" = Some (default (VStr id) (d !! "id"))
                 ∧ (∀ f, f ≠ "id" → e !! f = d !! f)
                 ∧ (reachable w → e !! "id" = Some (VStr id)))
    ∧ (pending w = ∅ → l = []).
Proof.
  intros Ho. eexists. rewrite listPending_cases, Ho. split; [reflexivity |].
  assert (Hkey : ∀ id d, docs w !! (rideRequests APP_ID, id) = Some d →
                         reachable w → with_id (id, d) !! "id" = Some (VStr id)).
  { intros id d Hd Hw. apply with_id_id.
    by destruct (reachable_records_ok w Hw _ _ d Hd) as (_ & _ & Hid). }
  split; [| split].
  - intros id d Hd Hs. exists (with_id (id, d)). split.
    + apply list_elem_of_fmap. exists ((rideRequests APP_ID, id), d). split; [done |].
      by apply elem_of_map_to_list, pending_lookup.
    + split; [apply with_id_own_or_key |]. split; [| by apply Hkey].
      intros f Hf. by apply with_id_lookup.
  - intros e ([[c id] d] & -> & Hel)%list_elem_of_fmap.
    apply elem_of_map_to_list, pending_lookup in Hel as (Hd & Hc & Hs).
    simpl in *. subst c. exists id, d. split; [done |].
    split; [apply with_id_own_or_key |]. split; [| by apply Hkey].
    intros f Hf. by apply with_id_lookup.
  - intros ->. by rewrite map_to_list_empty.
Qed.

End Lifecycle.

Section Race.
Context `{JSNumber}.

Implicit Types (w : world) (d : document) (k : string * string).

(** One request alone, given its two turns, is the handler. *)
Lemma accept_next_twice now id body w :
  let r1 := accept_next id (accept_begin now body) w in
  let r2 := accept_next id r1.1 r1.2 in
  r2 = (Replied (acceptRide now id body w).1, (acceptRide now id body w).2).
Proof.
  unfold accept_begin. destruct (body_rejected body) eqn:Hb; simpl.
  { by rewrite acceptRide_rejected. }
  rewrite acceptRide_passed by done. unfold getDoc, updateDoc.
  destruct (outage w) eqn:Ho; simpl; [done |].
  destruct (docs w !! _) eqn:Hd; simpl; [| done].
  unfold updateDoc. rewrite Ho, Hd. done.
Qed.

(** Two accepts write the same members, so the later one hides the
    earlier one whole. *)
Lemma later_accept_hides_earlier now1 body1 now2 body2 d :
  body_rejected body1 = false → body_rejected body2 = false →
  fields_of_body now1 body1 ∪ (fields_of_body now2 body2 ∪ d)
  = fields_of_body now1 body1 ∪ d.
Proof.
  intros Hb1 Hb2. apply map_eq. intros f.
  pose proof Hb1 as (a1 & b1 & c1 & Ha1 & Hn1 & Hv1 & _)%body_rejected_false.
  pose proof Hb2 as (a2 & b2 & c2 & Ha2 & Hn2 & Hv2 & _)%body_rejected_false.
  rewrite !lookup_union, !fields_of_body_lookup by done.
  rewrite Ha1, Hn1, Hv1, Ha2, Hn2, Hv2.
  repeat case_decide; by destruct (d !! f).
Qed.




Section Steps.
Variables (id : string) (now1 now2 : Z) (body1 body2 : document).
Variables (w0 : world) (d : document).
Hypothesis Hb1 : body_rejected body1 = false.
Hypothesis Hb2 : body_rejected body2 = false.

Local Abbreviation f1 := (fields_of_body now1 body1).
Local Abbreviation f2 := (fields_of_body now2 body2).




End Steps.


End Race.

(** * The properties at work on the scenario *)

#[local] Existing Instance Scenario.int_number.

Lemma scenario_requested_reachable : reachable Scenario.requested.
Proof. unfold Scenario.requested. apply run_reachable. constructor. Qed.

Lemma scenario_accepted_reachable : reachable Scenario.accepted.
Proof. unfold Scenario.accepted. apply run_reachable, scenario_requested_reachable. Qed.

Lemma scenario_requested_ride :
  docs Scenario.requested !! Scenario.the_ride = Some Scenario.ride_requested.
Proof. vm_cast_no_check (@eq_refl _ (Some Scenario.ride_requested)). Qed.

Lemma scenario_accepted_ride :
  docs Scenario.accepted !! Scenario.the_ride = Some Scenario.ride_accepted.
Proof. vm_cast_no_check (@eq_refl _ (Some Scenario.ride_accepted)). Qed.

(** The store after a sign-up is one the programs produce. *)
Lemma onboarding_signed_up_reachable : reachable Onboarding.signed_up.
Proof.
  apply (reachable_step (Submit APP_ID false (Resolved Onboarding.rider) 50)
           empty_world), reachable_empty.
Qed.

Lemma onboarding_asked_reachable : reachable Onboarding.asked.
Proof. unfold Onboarding.asked. apply run_reachable. constructor. Qed.

Lemma onboarding_taken_reachable : reachable Onboarding.taken.
Proof. unfold Onboarding.taken. apply run_reachable, onboarding_asked_reachable. Qed.

Lemma onboarding_asked_ride :
  docs Onboarding.asked !! (rideRequests APP_ID, "rider1") = Some Scenario.ride_requested.
Proof. vm_cast_no_check (@eq_refl _ (Some Scenario.ride_requested)). Qed.

Lemma onboarding_taken_ride :
  docs Onboarding.taken !! (rideRequests APP_ID, "rider1") = Some Scenario.ride_accepted.
Proof. vm_cast_no_check (@eq_refl _ (Some Scenario.ride_accepted)). Qed.

Lemma onboarding_asked_up : outage Onboarding.asked = None.
Proof. vm_compute. reflexivity. Qed.

(** C1 as stated fails: a complete takes a pending record straight to
    completed; an accept takes a completed record back to accepted; a
    second request takes an accepted record back to pending. *)
Lemma status_skips_and_regresses :
  (Scenario.status_in Scenario.requested = Some "pending"
   ∧ Scenario.status_in (step (CompleteRide 150 "rider1") Scenario.requested)
     = Some "completed"
   ∧ spec_transition "pending" "completed" = false)
  ∧ (Scenario.status_in Scenario.completed = Some "completed"
     ∧ Scenario.status_in (step (AcceptRide 400 "rider1" Scenario.bob) Scenario.completed)
       = Some "accepted"
     ∧ spec_transition "completed" "accepted" = false)
  ∧ (Scenario.status_in Scenario.accepted = Some "accepted"
     ∧ Scenario.status_in (step Scenario.request_again Scenario.accepted) = Some "pending"
     ∧ spec_transition "accepted" "pending" = false).
Proof. vm_compute. repeat split. Qed.

(** On the scenario: the rider has signed up and asked, and a complete
    goes through. *)
Lemma status_is_set_whatever_it_was_witness :
  (reachable Onboarding.asked
   ∧ docs Onboarding.asked !! (rideRequests APP_ID, "rider1")
     = Some Scenario.ride_requested)
  ∧ status_of Scenario.ride_requested = Some "pending"
  ∧ res_status (completeRide 150 "rider1" Onboarding.asked).1 = 200
  ∧ docs (completeRide 150 "rider1" Onboarding.asked).2 !! (rideRequests APP_ID, "rider1")
      ≫= status_of = Some "completed".
Proof.
  split; [split; [exact onboarding_asked_reachable | exact onboarding_asked_ride] |].
  split; [vm_compute; reflexivity |].
  destruct (status_is_set_whatever_it_was ListPending Onboarding.asked APP_ID "rider1"
              Scenario.ride_requested onboarding_asked_reachable onboarding_asked_ride)
    as (_ & _ & Hany).
  destruct (Hany onboarding_asked_up eq_refl) as [_ Hcomplete].
  exact (Hcomplete 150%Z).
Defined.





(** On the scenario: the rider asks again from the dashboard of [_app.js]
    while the ride is accepted; the record is pending anew and carries the
    e-mail of the profile. *)
Lemma request_replaces_with_fresh_pending_witness :
  (outage Scenario.accepted = None ∧ "rider1" ≠ "")
  ∧ Scenario.status_in Scenario.accepted = Some "accepted"
  ∧ getDoc (rideRequests APP_ID) "rider1"
      (AppGeo.handleRequestRide APP_ID true (Some "rider1") (Some Scenario.profile)
         (AppGeo.Position 41%Z (-74)%Z) 250 Scenario.accepted).2
    = (Returned (Some (AppGeo.rideRequest "rider1" (Some Scenario.profile)
                         41%Z (-74)%Z 250)),
       (AppGeo.handleRequestRide APP_ID true (Some "rider1") (Some Scenario.profile)
          (AppGeo.Position 41%Z (-74)%Z) 250 Scenario.accepted).2)
  ∧ status_of (AppGeo.rideRequest "rider1" (Some Scenario.profile) 41%Z (-74)%Z 250)
    = Some "pending"
  ∧ AppGeo.rideRequest "rider1" (Some Scenario.profile) 41%Z (-74)%Z 250 !! "riderEmail"
    = Some (VStr "a@x.com")
  ∧ App.rideRequest "rider1" (Some Scenario.profile) 250 !! "riderEmail"
    = Some (VStr "a@x.com").
Proof.
  assert (Ho : outage Scenario.accepted = None) by (vm_compute; reflexivity).
  assert (Hu : "rider1" ≠ "") by discriminate.
  split; [by split |]. split; [vm_compute; reflexivity |].
  destruct (request_replaces_with_fresh_pending APP_ID "rider1" (Some Scenario.profile)
              41%Z (-74)%Z 250 Scenario.accepted Ho Hu)
    as (_ & (_ & Hget) & (_ & Hs) & _ & _ & _ & _ & _ & _ & Hmail & _).
  split; [exact Hget |]. split; [exact Hs |].
  destruct (Hmail (VStr "a@x.com") eq_refl eq_refl) as [H0 H1].
  split; [exact H1 | exact H0].
Defined.


(** On the scenario: an accept with an empty name on the existing ride. *)
Lemma accept_missing_field_is_400_witness :
  (empty_or_missing (Scenario.nameless !! "driverId")
   ∨ empty_or_missing (Scenario.nameless !! "driverName")
   ∨ empty_or_missing (Scenario.nameless !! "driverVehicle"))
  ∧ acceptRide 200 "rider1" Scenario.nameless Scenario.requested =
      (Response 400 (Failure "Driver ID, name, and vehicle are required." None),
       Scenario.requested).
Proof.
  assert (Hbad : empty_or_missing (Scenario.nameless !! "driverId")
                 ∨ empty_or_missing (Scenario.nameless !! "driverName")
                 ∨ empty_or_missing (Scenario.nameless !! "driverVehicle")).
  { right; left. right. vm_compute. reflexivity. }
  split; [exact Hbad |].
  exact (accept_missing_field_is_400 200 "rider1" Scenario.nameless Scenario.requested Hbad).
Defined.

(** On the scenario: nobody asked for a ride under [rider2]. *)
Lemma unknown_id_is_404_witness :
  (outage Scenario.requested = None
   ∧ body_rejected Scenario.alice = false
   ∧ docs Scenario.requested !! (rideRequests APP_ID, "rider2") = None)
  ∧ acceptRide 200 "rider2" Scenario.alice Scenario.requested =
      (Response 404 (Failure "Ride request not found." None), Scenario.requested)
  ∧ completeRide 200 "rider2" Scenario.requested =
      (Response 404 (Failure "Ride request not found." None), Scenario.requested).
Proof.
  assert (Ho : outage Scenario.requested = None) by (vm_compute; reflexivity).
  assert (Hb : body_rejected Scenario.alice = false) by (vm_compute; reflexivity).
  assert (Hn : docs Scenario.requested !! (rideRequests APP_ID, "rider2") = None)
    by (vm_compute; reflexivity).
  split; [by repeat split |].
  exact (unknown_id_is_404 200 "rider2" Scenario.alice Scenario.requested Ho Hb Hn).
Defined.

(** On the scenario: completing Alice's ride. *)
Lemma complete_changes_two_members_witness :
  (outage Scenario.accepted = None
   ∧ docs Scenario.accepted !! (rideRequests APP_ID, "rider1")
     = Some Scenario.ride_accepted)
  ∧ ∃ d',
      completeRide 300 "rider1" Scenario.accepted =
        (Response 200 (Message "Ride request completed successfully." "rider1"),
         set_docs Scenario.accepted
           (<[(rideRequests APP_ID, "rider1") := d']> (docs Scenario.accepted)))
      ∧ d' !! "status" = Some (VStr "completed")
      ∧ d' !! "completedAt" = Some (VTime 300)
      ∧ d' !! "driverId" = Some (VStr "driverA").
Proof.
  assert (Ho : outage Scenario.accepted = None) by (vm_compute; reflexivity).
  split; [split; [exact Ho | exact scenario_accepted_ride] |].
  destruct (complete_changes_two_members 300 "rider1" Scenario.accepted
              Scenario.ride_accepted Ho scenario_accepted_ride)
    as (d' & Hrun & Hs & Hc & Hrest & _).
  exists d'. split; [exact Hrun |]. split; [exact Hs |]. split; [exact Hc |].
  rewrite Hrest by discriminate. vm_compute. reflexivity.
Defined.

(** C9 as stated fails: a pending record with a member [id] of its own
    is listed with that member, not with the key it is stored under. *)
Lemma listing_id_can_be_shadowed :
  docs Stray.store !! (rideRequests APP_ID, "rider9") = Some Stray.record
  ∧ listPending Stray.store
    = (Response 200 (Rides [with_id ("rider9", Stray.record)]), Stray.store)
  ∧ with_id ("rider9", Stray.record) !! "id" = Some (VStr "shadow")
  ∧ String.eqb "shadow" "rider9" = false.
Proof.
  split; [vm_cast_no_check (@eq_refl _ (Some Stray.record)) |].
  split; [vm_cast_no_check (@eq_refl _ (listPending Stray.store)) |].
  split; vm_compute; reflexivity.
Defined.

(** On the scenario, after the sign-up: the pending ride is listed under
    the rider's uid. *)
Lemma listing_id_is_the_key_unless_shadowed_witness :
  (outage Onboarding.asked = None ∧ reachable Onboarding.asked
   ∧ docs Onboarding.asked !! (rideRequests APP_ID, "rider1")
     = Some Scenario.ride_requested)
  ∧ ∃ l, listPending Onboarding.asked = (Response 200 (Rides l), Onboarding.asked)
         ∧ ∃ e, e ∈ l ∧ e !! "id" = Some (VStr "rider1")
                ∧ e !! "riderId" = Some (VStr "rider1").
Proof.
  split; [split; [exact onboarding_asked_up |];
          split; [exact onboarding_asked_reachable | exact onboarding_asked_ride] |].
  destruct (listing_id_is_the_key_unless_shadowed Onboarding.asked onboarding_asked_up)
    as (l & Hl & Hall & _).
  exists l. split; [exact Hl |].
  destruct (Hall "rider1" Scenario.ride_requested onboarding_asked_ride)
    as (e & Hin & _ & Hrest & Hid); [vm_compute; reflexivity |].
  exists e. split; [exact Hin |]. split; [exact (Hid onboarding_asked_reachable) |].
  rewrite Hrest by discriminate. vm_compute. reflexivity.
Defined.

(** The failure messages of [_app.js], code by code. *)
Example geolocation_messages :
  AppGeo.errorMessage AppGeo.PERMISSION_DENIED
    = "Location access denied. Please enable location services for this app."
  ∧ AppGeo.errorMessage AppGeo.POSITION_UNAVAILABLE = "Location information is unavailable."
  ∧ AppGeo.errorMessage AppGeo.TIMEOUT = "The request to get user location timed out."
  ∧ AppGeo.errorMessage 0 = "Unable to retrieve your location.".
Proof. repeat split. Qed.

(** * More on the three routes *)

Section Routes.
Context `{JSNumber}.

Implicit Types (w : world) (d : document) (k : string * string) (o : op).

(** X1. While the backend rejects calls, the listing and a complete are
    answered 500 with the backend's message as details, and so is an accept
    whose body passes the check; an accept whose body fails it is still
    answered 400. Nothing is written in any of these cases. *)
Theorem outage_is_500_and_writes_nothing now id body w e :
  outage w = Some e →
  listPending w =
    (Response 500 (Failure "Failed to fetch ride requests" (Some e)), w)
  ∧ completeRide now id w =
    (Response 500 (Failure "Failed to complete ride request" (Some e)), w)
  ∧ acceptRide now id body w =
    (if body_rejected body
     then Response 400 (Failure "Driver ID, name, and vehicle are required." None)
     else Response 500 (Failure "Failed to accept ride request" (Some e)), w).
Proof.
  intros Ho. rewrite listPending_cases, completeRide_cases, Ho.
  split; [done |]. split; [done |].
  destruct (body_rejected body) eqn:Hb.
  - by apply acceptRide_rejected.
  - by rewrite acceptRide_passed, Ho.
Qed.

Lemma in_accept_members (f : string) :
  f ∈ accept_members ↔
  f = "status" ∨ f = "driverId" ∨ f = "driverName" ∨ f = "driverVehicle"
  ∨ f = "acceptedAt".
Proof.
  unfold accept_members, driver_fields. rewrite !elem_of_cons, elem_of_nil. tauto.
Qed.

(** X2. An accept that is answered 200 writes five members of the record,
    [status], [driverId], [driverName], [driverVehicle] and [acceptedAt]:
    the driver's three are stored as the body gave them, whatever their
    type; every other member of the record, [completedAt] included, and
    every other record is what it was. *)
Theorem accept_changes_five_members now id body w d :
  outage w = None → body_rejected body = false →
  docs w !! (rideRequests APP_ID, id) = Some d →
  ∃ d',
    acceptRide now id body w =
      (Response 200 (Message "Ride request accepted successfully." id),
       set_docs w (<[(rideRequests APP_ID, id) := d']> (docs w)))
    ∧ d' !! "status" = Some (VStr "accepted")
    ∧ d' !! "driverId" = body !! "driverId"
    ∧ d' !! "driverName" = body !! "driverName"
    ∧ d' !! "driverVehicle" = body !! "driverVehicle"
    ∧ d' !! "acceptedAt" = Some (VTime now)
    ∧ (∀ f : string, f ∉ accept_members → d' !! f = d !! f)
    ∧ (∀ k, k ≠ (rideRequests APP_ID, id) →
         docs (acceptRide now id body w).2 !! k = docs w !! k).
Proof.
  intros Ho Hb Hd. exists (fields_of_body now body ∪ d).
  rewrite acceptRide_passed, Ho, Hd by done.
  pose proof Hb as (a & b & c & Ha & Hn & Hv & _)%body_rejected_false.
  split; [done |].
  rewrite !lookup_union, !fields_of_body_lookup by done. simpl.
  rewrite Ha, Hn, Hv. simpl.
  repeat split; try by match goal with |- _ ∪ ?x = _ => destruct x end.
  - intros f Hf. rewrite in_accept_members in Hf.
    rewrite lookup_union, fields_of_body_lookup by done.
    repeat case_decide; try tauto. by destruct (d !! f).
  - intros k Hk. by rewrite lookup_insert_ne.
Qed.

(** X3. Only an answer of 200 goes with a write: an accept or a complete
    answered anything else leaves the store exactly as it was, the listing
    never writes, and the three routes answer with no other code than 200,
    400, 404 and 500. *)
Theorem only_a_200_writes now id body w :
  (res_status (acceptRide now id body w).1 ≠ 200 → (acceptRide now id body w).2 = w)
  ∧ (res_status (completeRide now id w).1 ≠ 200 → (completeRide now id w).2 = w)
  ∧ (listPending w).2 = w
  ∧ res_status (acceptRide now id body w).1 ∈ [200; 400; 404; 500]
  ∧ res_status (completeRide now id w).1 ∈ [200; 404; 500]
  ∧ res_status (listPending w).1 ∈ [200; 500].
Proof.
  rewrite completeRide_cases, listPending_cases.
  destruct (body_rejected body) eqn:Hb.
  - rewrite acceptRide_rejected by done.
    destruct (outage w), (docs w !! (rideRequests APP_ID, id)); simpl;
      repeat split; try done; set_solver.
  - rewrite acceptRide_passed by done.
    destruct (outage w), (docs w !! (rideRequests APP_ID, id)); simpl;
      repeat split; try done; set_solver.
Qed.

(** X4. The checks of an accept come in a fixed order: the body first (400,
    even for an unknown id or during an outage), then the backend (500),
    then the record (404); a complete has the last two. *)
Theorem status_code_by_precedence now id body w :
  (res_status (acceptRide now id body w).1 = 400 ↔ body_rejected body = true)
  ∧ (res_status (acceptRide now id body w).1 = 500 ↔
     body_rejected body = false ∧ is_Some (outage w))
  ∧ (res_status (acceptRide now id body w).1 = 404 ↔
     body_rejected body = false ∧ outage w = None
     ∧ docs w !! (rideRequests APP_ID, id) = None)
  ∧ (res_status (acceptRide now id body w).1 = 200 ↔
     body_rejected body = false ∧ outage w = None
     ∧ is_Some (docs w !! (rideRequests APP_ID, id)))
  ∧ (res_status (completeRide now id w).1 = 500 ↔ is_Some (outage w))
  ∧ (res_status (completeRide now id w).1 = 404 ↔
     outage w = None ∧ docs w !! (rideRequests APP_ID, id) = None)
  ∧ (res_status (completeRide now id w).1 = 200 ↔
     outage w = None ∧ is_Some (docs w !! (rideRequests APP_ID, id))).
Proof.
  rewrite completeRide_cases.
  destruct (body_rejected body) eqn:Hb.
  - rewrite acceptRide_rejected by done.
    destruct (outage w), (docs w !! (rideRequests APP_ID, id)); simpl;
      rewrite ?is_Some_alt; repeat split; intros; destruct_and?; done.
  - rewrite acceptRide_passed by done.
    destruct (outage w), (docs w !! (rideRequests APP_ID, id)); simpl;
      rewrite ?is_Some_alt; repeat split; intros; destruct_and?; done.
Qed.

(** ** The set of records *)

Lemma step_dom_driver o w : driver_op o = true → dom (docs (step o w)) = dom (docs w).
Proof.
  destruct o as [| | now id body | now id | | | condition]; try done; intros _; simpl.
  - destruct (body_rejected body) eqn:Hb.
    { by rewrite acceptRide_rejected. }
    rewrite acceptRide_passed by done.
    destruct (outage w); [done |].
    destruct (docs w !! _) eqn:Hd; [| done]. simpl.
    rewrite dom_insert_L. apply elem_of_dom_2 in Hd. set_solver.
  - rewrite completeRide_cases.
    destruct (outage w); [done |].
    destruct (docs w !! _) eqn:Hd; [| done]. simpl.
    rewrite dom_insert_L. apply elem_of_dom_2 in Hd. set_solver.
  - by rewrite listPending_world.
Qed.

Lemma step_dom o w : dom (docs w) ⊆ dom (docs (step o w)).
Proof.
  intros k [d Hd]%elem_of_dom. apply elem_of_dom.
  destruct (step_lookup o w k)
    as [Heq | [(_ & ? & ? & ? & _ & _ & _ & Heq)
              | [(_ & ? & ? & _ & Heq)
                | [(_ & ? & _ & Heq) | (? & ? & ? & _ & _ & Heq)]]]];
    rewrite Heq; eauto.
Qed.

Lemma run_cons o ops w : run (o :: ops) w = run ops (step o w).
Proof. reflexivity. Qed.

(** X5. No route creates or removes a record: after any sequence of
    accepts, completes, listings and changes of the backend's condition
    the store holds records under exactly the keys it held before. Over
    all operations, requests included, no key is ever lost. *)
Theorem routes_keep_the_keys ops w :
  (Forall (fun o => driver_op o = true) ops → dom (docs (run ops w)) = dom (docs w))
  ∧ dom (docs w) ⊆ dom (docs (run ops w)).
Proof.
  split.
  - revert w. induction ops as [| o ops IH]; intros w Hops; [done |].
    apply Forall_cons in Hops as [Ho Hops].
    rewrite run_cons, IH by done. by apply step_dom_driver.
  - revert w. induction ops as [| o ops IH]; intros w; [done |].
    rewrite run_cons. etrans; [apply (step_dom o) |]. apply IH.
Qed.

End Routes.

(** * How the operations compose *)

Section Composition.
Context `{JSNumber}.

Implicit Types (w : world) (d : document) (k : string * string) (o : op).

Lemma pending_insert_other w k d :
  status_of d ≠ Some "pending" →
  filter (in_query (rideRequests APP_ID) "status" "pending") (<[k := d]> (docs w))
  = delete k (pending w).
Proof.
  intros Hs. unfold pending. rewrite map_filter_insert_False.
  - apply map_filter_delete.
  - unfold in_query. simpl. rewrite field_is_status. tauto.
Qed.

Lemma pending_insert_pending w id d :
  status_of d = Some "pending" →
  filter (in_query (rideRequests APP_ID) "status" "pending")
    (<[(rideRequests APP_ID, id) := d]> (docs w))
  = <[(rideRequests APP_ID, id) := d]> (pending w).
Proof.
  intros Hs. unfold pending. apply map_filter_insert_True.
  unfold in_query. simpl. by rewrite field_is_status.
Qed.

(** X6. What the drivers see follows the record: when an accept (with a
    body that passes) or a complete is answered 200, the pending records
    are the ones there were without the record at that id, and the next
    listing has one element for each of them. *)
Theorem answered_ride_leaves_the_listing now id body w d :
  outage w = None → docs w !! (rideRequests APP_ID, id) = Some d →
  body_rejected body = false →
  let after_accept := (acceptRide now id body w).2 in
  let after_complete := (completeRide now id w).2 in
  pending after_accept = delete (rideRequests APP_ID, id) (pending w)
  ∧ pending after_complete = delete (rideRequests APP_ID, id) (pending w)
  ∧ (∃ l, listPending after_accept = (Response 200 (Rides l), after_accept)
          ∧ length l = size (delete (rideRequests APP_ID, id) (pending w)))
  ∧ (∃ l, listPending after_complete = (Response 200 (Rides l), after_complete)
          ∧ length l = size (delete (rideRequests APP_ID, id) (pending w))).
Proof.
  intros Ho Hd Hb after_accept after_complete.
  assert (Ha : pending after_accept = delete (rideRequests APP_ID, id) (pending w)).
  { subst after_accept. rewrite acceptRide_passed, Ho, Hd by done.
    unfold pending at 1. simpl. apply pending_insert_other.
    assert (status_of (fields_of_body now body ∪ d) = Some "accepted") as ->; [| done].
    apply status_of_Some. rewrite lookup_union, fields_of_body_lookup by done.
    simpl. by destruct (d !! "status"). }
  assert (Hc : pending after_complete = delete (rideRequests APP_ID, id) (pending w)).
  { subst after_complete. rewrite completeRide_cases, Ho, Hd.
    unfold pending at 1. simpl. apply pending_insert_other.
    assert (status_of (complete_fields now ∪ d) = Some "completed") as ->; [| done].
    apply status_of_Some. rewrite lookup_union, complete_fields_lookup.
    simpl. by destruct (d !! "status"). }
  split; [done |]. split; [done |]. split.
  - eexists. rewrite listPending_cases.
    assert (outage after_accept = None) as ->.
    { subst after_accept. by rewrite acceptRide_passed, Ho, Hd by done. }
    split; [done |]. by rewrite length_fmap, length_map_to_list, Ha.
  - eexists. rewrite listPending_cases.
    assert (outage after_complete = None) as ->.
    { subst after_complete. by rewrite completeRide_cases, Ho, Hd. }
    split; [done |]. by rewrite length_fmap, length_map_to_list, Hc.
Qed.

(** X7. The last accept wins, also one after the other: an accept with a
    body that passes, coming after any other accept on the same id, gets
    the answer and leaves the store it would have without the earlier
    one. *)
Theorem later_accept_wins now1 body1 now2 body2 id w :
  body_rejected body2 = false →
  acceptRide now2 id body2 (acceptRide now1 id body1 w).2 = acceptRide now2 id body2 w.
Proof.
  intros Hb2. destruct (body_rejected body1) eqn:Hb1.
  { by rewrite (acceptRide_rejected now1). }
  rewrite (acceptRide_passed now1) by done.
  destruct (outage w) eqn:Ho; [done |].
  destruct (docs w !! (rideRequests APP_ID, id)) as [d|] eqn:Hd; [| done].
  rewrite !(acceptRide_passed now2) by done. simpl.
  rewrite Ho, Hd, lookup_insert_eq, insert_insert_eq.
  by rewrite later_accept_hides_earlier.
Qed.

(** X8. An accept and a complete write different members apart from
    [status], so their order shows in the status only: whichever comes
    last sets it, and the record carries the driver's members and
    [completedAt] either way; a record accepted after it was completed
    still has its [completedAt]. *)
Theorem accept_and_complete_in_either_order now1 now2 id body w d :
  outage w = None → docs w !! (rideRequests APP_ID, id) = Some d →
  body_rejected body = false →
  ∃ d1 d2,
    docs (completeRide now2 id (acceptRide now1 id body w).2).2
      !! (rideRequests APP_ID, id) = Some d1
    ∧ docs (acceptRide now1 id body (completeRide now2 id w).2).2
        !! (rideRequests APP_ID, id) = Some d2
    ∧ status_of d1 = Some "completed"
    ∧ status_of d2 = Some "accepted"
    ∧ d2 !! "completedAt" = Some (VTime now2)
    ∧ (∀ f : string, f ≠ "status" → d1 !! f = d2 !! f).
Proof.
  intros Ho Hd Hb.
  exists (complete_fields now2 ∪ (fields_of_body now1 body ∪ d)),
         (fields_of_body now1 body ∪ (complete_fields now2 ∪ d)).
  rewrite (acceptRide_passed now1 id body w), Ho, Hd by done.
  rewrite (completeRide_cases now2 id w), Ho, Hd.
  rewrite completeRide_cases, acceptRide_passed by done. simpl.
  rewrite Ho, !lookup_insert_eq. simpl. rewrite !lookup_insert_eq.
  split; [done |]. split; [done |].
  rewrite !status_of_Some, !lookup_union.
  rewrite !complete_fields_lookup, !fields_of_body_lookup by done. simpl.
  split; [by destruct (d !! "status") |].
  split; [by destruct (d !! "status") |].
  split; [by destruct (d !! "completedAt") |].
  intros f Hf. rewrite !lookup_union.
  rewrite !complete_fields_lookup, !fields_of_body_lookup by done.
  pose proof Hb as (a & b & c & -> & -> & -> & _)%body_rejected_false.
  repeat case_decide; subst; try done; by destruct (d !! _).
Qed.

(** X9. The last complete wins as well: completing twice leaves what the
    second complete alone would leave, with its instant as [completedAt]. *)
Theorem later_complete_wins now1 now2 id w :
  completeRide now2 id (completeRide now1 id w).2 = completeRide now2 id w.
Proof.
  rewrite (completeRide_cases now1).
  destruct (outage w) eqn:Ho; [done |].
  destruct (docs w !! (rideRequests APP_ID, id)) as [d|] eqn:Hd; [| done].
  rewrite !(completeRide_cases now2). simpl.
  rewrite Ho, Hd, lookup_insert_eq, insert_insert_eq.
  do 3 f_equal. apply map_eq. intros f.
  rewrite !lookup_union, !complete_fields_lookup.
  repeat case_decide; by destruct (d !! f).
Qed.

End Composition.

(** * The dashboard and the service together *)


Section Together.
Context `{JSNumber}.

Implicit Types (w : world) (d : document) (k : string * string) (o : op).

Lemma App_request_cases app_id db userId p now w :
  App.handleRequestRide app_id db userId p now w =
    match userId with
    | Some u =>
        if negb db || no_user userId then (["Please log in to request a ride."], w)
        else match outage w with
             | Some e => (["Requesting ride..."; "Failed to request ride: " +:+ e], w)
             | None =>
                 (["Requesting ride...";
                   "Ride requested successfully! Waiting for a driver..."],
                  set_docs w (<[(rideRequests app_id, u) := App.rideRequest u p now]>
                                (docs w)))
             end
    | None => (["Please log in to request a ride."], w)
    end.
Proof.
  unfold App.handleRequestRide, setDoc.
  destruct userId as [u|]; [| done].
  destruct (negb db || no_user (Some u)); [done |]. by destruct (outage w).
Qed.

Lemma AppGeo_request_cases app_id db userId p lat lng now w :
  AppGeo.handleRequestRide app_id db userId p (AppGeo.Position lat lng) now w =
    match userId with
    | Some u =>
        if negb db || no_user userId
        then ([AppGeo.Notify "error" "Please log in to request a ride."], w)
        else match outage w with
             | Some e =>
                 ([AppGeo.Notify "info" "Getting your location...";
                   AppGeo.Notify "info" "Requesting ride...";
                   AppGeo.Notify "error" ("Failed to request ride: " +:+ e)], w)
             | None =>
                 ([AppGeo.Notify "info" "Getting your location...";
                   AppGeo.Notify "info" "Requesting ride...";
                   AppGeo.Notify "success"
                     "Ride requested successfully! Drivers have been alerted."],
                  set_docs w
                    (<[(rideRequests app_id, u) :=
                         AppGeo.rideRequest u p lat lng now]> (docs w)))
             end
    | None => ([AppGeo.Notify "error" "Please log in to request a ride."], w)
    end.
Proof.
  unfold AppGeo.handleRequestRide, setDoc.
  destruct userId as [u|]; [| done].
  destruct (negb db || no_user (Some u)); [done |]. by destruct (outage w).
Qed.

Lemma no_position_no_write_aux app_id db userId p geo now w :
  match geo with AppGeo.Position _ _ => False | _ => True end →
  (AppGeo.handleRequestRide app_id db userId p geo now w).2 = w.
Proof.
  unfold AppGeo.handleRequestRide. destruct userId as [u|]; [| done].
  destruct (negb db || no_user (Some u)); [done |]. by destruct geo.
Qed.

(** X10. Without a Firestore handle or without a signed-in user (no uid,
    or an empty one) a click on the button writes nothing, in either
    revision: the only effect is the request to log in. *)
Theorem request_without_login_writes_nothing app_id db userId p geo now w :
  negb db || no_user userId = true →
  App.handleRequestRide app_id db userId p now w =
    (["Please log in to request a ride."], w)
  ∧ AppGeo.handleRequestRide app_id db userId p geo now w =
    ([AppGeo.Notify "error" "Please log in to request a ride."], w).
Proof.
  intros Hg. unfold App.handleRequestRide, AppGeo.handleRequestRide.
  destruct userId as [u|]; [| done]. by rewrite Hg.
Qed.

(** X11. When the backend rejects the write, the rider is told so with the
    backend's message and the store keeps the record it had, in either
    revision. *)
Theorem request_during_outage_is_reported app_id u p lat lng now w e :
  outage w = Some e → u ≠ "" →
  App.handleRequestRide app_id true (Some u) p now w =
    (["Requesting ride..."; "Failed to request ride: " +:+ e], w)
  ∧ AppGeo.handleRequestRide app_id true (Some u) p (AppGeo.Position lat lng) now w =
    ([AppGeo.Notify "info" "Getting your location...";
      AppGeo.Notify "info" "Requesting ride...";
      AppGeo.Notify "error" ("Failed to request ride: " +:+ e)], w).
Proof.
  intros Ho Hu. rewrite App_request_cases, AppGeo_request_cases.
  by rewrite no_user_false, Ho.
Qed.

(** X12. The store changes only when the rider is told of success: in
    either revision, whatever the inputs, if the last message is not the
    success message the store is exactly what it was. *)
Theorem no_success_message_no_write app_id db userId p geo now w :
  (last (App.handleRequestRide app_id db userId p now w).1
     ≠ Some "Ride requested successfully! Waiting for a driver..." →
   (App.handleRequestRide app_id db userId p now w).2 = w)
  ∧ (AppGeo.snackbarSeverity
       <$> AppGeo.shown (AppGeo.handleRequestRide app_id db userId p geo now w).1
     ≠ Some "success" →
     (AppGeo.handleRequestRide app_id db userId p geo now w).2 = w).
Proof.
  split.
  - rewrite App_request_cases. destruct userId as [u|]; [| done].
    destruct (negb db || no_user (Some u)); [done |]. by destruct (outage w).
  - destruct geo as [| code | lat lng].
    + intros _. by apply no_position_no_write_aux.
    + intros _. by apply no_position_no_write_aux.
    + rewrite AppGeo_request_cases. destruct userId as [u|]; [| done].
      destruct (negb db || no_user (Some u)); [done |]. by destruct (outage w).
Qed.

(** X13. The e-mail a record carries is never blank: it is the profile's
    [email] when that is truthy, and the text N/A when there is no profile,
    no such member, or a falsy one (the empty string, null). *)
Theorem rider_email_is_never_blank (p : option document) :
  truthy (riderEmail p) = true
  ∧ (∀ v, p ≫= (fun d => d !! "email") = Some v → truthy v = true → riderEmail p = v)
  ∧ (js_not (p ≫= (fun d => d !! "email")) = true → riderEmail p = VStr "N/A").
Proof.
  unfold riderEmail, js_or, js_not.
  destruct (p ≫= _) as [v|]; [| done].
  destruct (truthy v) eqn:Hv; repeat split; try done.
  - by intros ? [= <-].
  - intros ? [= <-]. congruence.
Qed.

(** X14. A request shows in the listing when the dashboard runs under the
    app id of the service: the pending records are then the ones there
    were plus the new record under the rider's uid, in either revision. *)
Theorem requested_ride_is_pending u p lat lng now w :
  outage w = None → u ≠ "" →
  pending (App.handleRequestRide APP_ID true (Some u) p now w).2
    = <[(rideRequests APP_ID, u) := App.rideRequest u p now]> (pending w)
  ∧ pending (AppGeo.handleRequestRide APP_ID true (Some u) p
               (AppGeo.Position lat lng) now w).2
    = <[(rideRequests APP_ID, u) := AppGeo.rideRequest u p lat lng now]> (pending w).
Proof.
  intros Ho Hu. rewrite App_request_done, AppGeo_request_done by done.
  unfold pending at 1 3. simpl. split; apply pending_insert_pending.
  - unfold status_of. by rewrite App_rideRequest_lookup.
  - unfold status_of. by rewrite AppGeo_rideRequest_lookup.
Qed.

(** X15. Under any other app id the dashboard writes to another
    collection: the service's collection is untouched, and the listing
    answers what it answered before. *)
Theorem request_under_other_app_id_is_unseen app_id db userId p geo now w :
  app_id ≠ APP_ID →
  let w0 := (App.handleRequestRide app_id db userId p now w).2 in
  let w1 := (AppGeo.handleRequestRide app_id db userId p geo now w).2 in
  (∀ id, docs w0 !! (rideRequests APP_ID, id) = docs w !! (rideRequests APP_ID, id))
  ∧ (∀ id, docs w1 !! (rideRequests APP_ID, id) = docs w !! (rideRequests APP_ID, id))
  ∧ (listPending w0).1 = (listPending w).1
  ∧ (listPending w1).1 = (listPending w).1.
Proof.
  intros Hne w0 w1.
  assert (H0 : ∀ k, k.1 = rideRequests APP_ID → docs w0 !! k = docs w !! k).
  { intros k Hc. subst w0.
    destruct (App_request_lookup app_id db userId p now w k) as [? | (_ & Hc' & _)];
      [done |]. rewrite Hc in Hc'. by apply rideRequests_inj in Hc'. }
  assert (H1 : ∀ k, k.1 = rideRequests APP_ID → docs w1 !! k = docs w !! k).
  { intros k Hc. subst w1.
    destruct (AppGeo_request_lookup app_id db userId p geo now w k)
      as [? | (_ & Hc' & _)]; [done |].
    rewrite Hc in Hc'. by apply rideRequests_inj in Hc'. }
  assert (Hout0 : outage w0 = outage w).
  { subst w0. rewrite App_request_cases. destruct userId; [| done].
    destruct (negb db || _); [done |]. by destruct (outage w) eqn:Ho. }
  assert (Hout1 : outage w1 = outage w).
  { subst w1. unfold AppGeo.handleRequestRide, setDoc. destruct userId; [| done].
    destruct (negb db || _); [done |]. destruct geo; try done.
    by destruct (outage w) eqn:Ho. }
  assert (Hp : ∀ w', (∀ k, k.1 = rideRequests APP_ID → docs w' !! k = docs w !! k) →
                     pending w' = pending w).
  { intros w' Hw'. apply map_eq. intros k. apply option_eq. intros d.
    rewrite !pending_lookup. split; intros (Hd & Hc & Hs).
    - by rewrite <- Hw'.
    - by rewrite Hw'. }
  split; [by intros id; apply H0 |]. split; [by intros id; apply H1 |].
  rewrite !listPending_cases, Hout0, Hout1, (Hp w0 H0), (Hp w1 H1).
  by destruct (outage w).
Qed.

End Together.

(** * What every record keeps *)

Section Records.
Context `{JSNumber}.

Implicit Types (w : world) (d : document) (k : string * string) (o : op).

Lemma step_keeps_rider_and_driver o w k d' :
  (∀ d, docs w !! k = Some d → names_rider_and_driver k d) →
  docs (step o w) !! k = Some d' → names_rider_and_driver k d'.
Proof.
  intros IH. unfold names_rider_and_driver.
  destruct o as [app_id db userId p now | app_id db userId p geo now
                | now id body | now id | | app_id isLogin provider now
                | condition]; simpl.
  - destruct (App_request_lookup app_id db userId p now w k) as [-> | (_ & _ & ->)];
      [by apply IH |].
    intros [= <-]. unfold status_of. rewrite !App_rideRequest_lookup. simpl. done.
  - destruct (AppGeo_request_lookup app_id db userId p geo now w k)
      as [-> | (_ & _ & lat & lng & ->)]; [by apply IH |].
    intros [= <-]. unfold status_of. rewrite !AppGeo_rideRequest_lookup. simpl. done.
  - destruct (acceptRide_lookup now id body w k) as [-> | (-> & Hb & d & Hd & ->)];
      [by apply IH |].
    intros [= <-]. destruct (IH d Hd) as (Hr & _).
    specialize (Hr (ex_intro _ APP_ID eq_refl)).
    pose proof Hb as (a & b & c & Ha & Hn & Hv & Ta & Tb & Tc)%body_rejected_false.
    split.
    + intros _. rewrite lookup_union, fields_of_body_lookup, Hr by done. done.
    + intros _ f Hf. rewrite lookup_union, fields_of_body_lookup by done.
      rewrite !elem_of_cons, elem_of_nil in Hf.
      destruct Hf as [-> | [-> | [-> | []]]]; simpl;
        rewrite ?Ha, ?Hn, ?Hv; eexists;
        (split; [by match goal with |- _ ∪ ?x = _ => destruct x end | done]).
  - destruct (completeRide_lookup now id w k) as [-> | (-> & d & Hd & ->)];
      [by apply IH |].
    intros [= <-]. destruct (IH d Hd) as (Hr & _).
    specialize (Hr (ex_intro _ APP_ID eq_refl)). split.
    + intros _. rewrite lookup_union, complete_fields_lookup, Hr. done.
    + intros Hs. apply status_of_Some in Hs.
      rewrite lookup_union, complete_fields_lookup in Hs. simpl in Hs.
      by destruct (d !! "status").
  - rewrite listPending_world. by apply IH.
  - destruct (handleSubmit_lookup app_id isLogin provider now w k)
      as [-> | (user & _ & _ & -> & ->)]; [by apply IH |].
    intros [= <-]. split.
    + intros [a Ha]. simpl in Ha. by apply profilePath_not_rideRequests in Ha.
    + unfold status_of, AuthScreen.profile. by simplify_map_eq.
  - by apply IH.
Qed.

Lemma reachable_keeps_rider_and_driver w :
  reachable w → ∀ k d, docs w !! k = Some d → names_rider_and_driver k d.
Proof.
  induction 1 as [| o w Hw IH]; intros k d Hd.
  - unfold empty_world in Hd. simpl in Hd. by rewrite lookup_empty in Hd.
  - eapply step_keeps_rider_and_driver; [| done]. intros d0 Hd0. by apply IH.
Qed.

(** X23. In a store the two programs produced, sign-ups included, every
    ride request names the rider it is stored under: its [riderId] is its
    document id. So each pending ride request has its element in the
    listing, with [id] and [riderId] both equal to that id, and every
    element of the listing has the two equal. *)
Theorem record_is_stored_under_its_rider w :
  reachable w →
  (∀ a id d, docs w !! (rideRequests a, id) = Some d →
     d !! "riderId" = Some (VStr id))
  ∧ (outage w = None →
     ∃ l, listPending w = (Response 200 (Rides l), w)
          ∧ (∀ id d, docs w !! (rideRequests APP_ID, id) = Some d →
               status_of d = Some "pending" →
               ∃ e, e ∈ l ∧ e !! "id" = Some (VStr id)
                    ∧ e !! "riderId" = Some (VStr id))
          ∧ ∀ e, e ∈ l → ∃ id, e !! "id" = Some (VStr id)
                               ∧ e !! "riderId" = Some (VStr id)).
Proof.
  intros Hw.
  assert (Hrider : ∀ a id d, docs w !! (rideRequests a, id) = Some d →
                             d !! "riderId" = Some (VStr id)).
  { intros a id d Hd.
    destruct (reachable_keeps_rider_and_driver w Hw _ d Hd) as (Hr & _).
    apply Hr. simpl. eauto. }
  split; [done |]. intros Ho.
  assert (Helem : ∀ id d, docs w !! (rideRequests APP_ID, id) = Some d →
                          with_id (id, d) !! "id" = Some (VStr id)
                          ∧ with_id (id, d) !! "riderId" = Some (VStr id)).
  { intros id d Hd.
    destruct (reachable_records_ok w Hw _ _ d Hd) as (_ & _ & Hid).
    split; [by apply with_id_id |]. rewrite with_id_lookup by done. eauto. }
  eexists. rewrite listPending_cases, Ho. split; [reflexivity |]. split.
  - intros id d Hd Hs. exists (with_id (id, d)). split; [| by apply Helem].
    apply list_elem_of_fmap. exists ((rideRequests APP_ID, id), d). split; [done |].
    by apply elem_of_map_to_list, pending_lookup.
  - intros e ([[c id] d] & -> & Hel)%list_elem_of_fmap.
    apply elem_of_map_to_list, pending_lookup in Hel as (Hd & Hc & Hs).
    simpl in *. subst c. exists id. by apply Helem.
Qed.

(** X24. In a store the two programs produced, sign-ups included, a
    document with status accepted always names its driver: [driverId],
    [driverName] and [driverVehicle] are present and truthy. *)
Theorem accepted_record_names_its_driver w k d :
  reachable w → docs w !! k = Some d → status_of d = Some "accepted" →
  ∀ f : string, f ∈ ["driverId"; "driverName"; "driverVehicle"] →
    ∃ v, d !! f = Some v ∧ truthy v = true.
Proof.
  intros Hw Hd. by destruct (reachable_keeps_rider_and_driver w Hw k d Hd).
Qed.

End Records.

(** * Accounts, profiles and the screens *)

Section Accounts.
Context `{JSNumber}.

Implicit Types (w : world) (d : document) (k : string * string).

Lemma request_later_world app_id u db1 p1 geo1 now1 w w' :
  w' = (App.handleRequestRide app_id db1 (Some u) p1 now1 w).2
  ∨ w' = (AppGeo.handleRequestRide app_id db1 (Some u) p1 geo1 now1 w).2 →
  w' = w
  ∨ ∃ r, outage w = None ∧ w' = set_docs w (<[(rideRequests app_id, u) := r]> (docs w)).
Proof.
  intros [-> | ->].
  - rewrite App_request_cases. destruct (negb db1 || _); [by left |].
    destruct (outage w) eqn:Ho; [by left | right; eauto].
  - unfold AppGeo.handleRequestRide, setDoc. destruct (negb db1 || _); [by left |].
    destruct geo1; [by left | by left |].
    destruct (outage w) eqn:Ho; [by left | right; eauto].
Qed.

(** X16. The last request that reaches the store wins: a request by a
    signed-in rider that gets to its write (in [_app.js]: the browser
    delivered a position), coming after any other request of the same
    rider under the same app id (from either revision, gone through or
    not), ends as it would have without the earlier one, message and
    store. A later request in [_app.js] whose position is not delivered
    writes nothing: the store stays as the earlier request left it. *)
Theorem later_request_wins app_id u db1 p1 geo1 now1 p2 lat lng now2 w w' :
  u ≠ "" →
  w' = (App.handleRequestRide app_id db1 (Some u) p1 now1 w).2
  ∨ w' = (AppGeo.handleRequestRide app_id db1 (Some u) p1 geo1 now1 w).2 →
  App.handleRequestRide app_id true (Some u) p2 now2 w'
    = App.handleRequestRide app_id true (Some u) p2 now2 w
  ∧ AppGeo.handleRequestRide app_id true (Some u) p2 (AppGeo.Position lat lng) now2 w'
    = AppGeo.handleRequestRide app_id true (Some u) p2 (AppGeo.Position lat lng) now2 w
  ∧ (AppGeo.handleRequestRide app_id true (Some u) p2 AppGeo.Unsupported now2 w').2 = w'
  ∧ (∀ code,
       (AppGeo.handleRequestRide app_id true (Some u) p2 (AppGeo.PositionError code)
          now2 w').2 = w').
Proof.
  intros Hu Hw'.
  assert (Hfail : (AppGeo.handleRequestRide app_id true (Some u) p2 AppGeo.Unsupported
                     now2 w').2 = w'
                  ∧ ∀ code,
                      (AppGeo.handleRequestRide app_id true (Some u) p2
                         (AppGeo.PositionError code) now2 w').2 = w').
  { split; [| intros code]; by apply no_position_no_write_aux. }
  destruct Hfail as [Hun Herr].
  apply request_later_world in Hw' as [-> | (r & Ho & ->)]; [done |].
  split; [| split; [| split; [exact Hun | exact Herr]]].
  - rewrite !App_request_done by done.
    unfold set_docs. simpl. by rewrite !insert_insert_eq.
  - rewrite !AppGeo_request_done by done.
    unfold set_docs. simpl. by rewrite !insert_insert_eq.
Qed.

(** ** Signing in and signing up *)

(** X17. However a submission of the form ends, [authLoading] is cleared.
    Signing in never writes to the store. The error shown is the message
    of the call that threw, the provider's or, on sign-up, the store's for
    the profile; and whenever an error is shown nothing was written, even
    though on sign-up the provider may have created the account. *)
Theorem form_settles app_id isLogin provider now w :
  let r := AuthScreen.handleSubmit app_id isLogin provider now w in
  AuthScreen.authLoading r.1 = false
  ∧ (isLogin = true → r.2 = w)
  ∧ (∀ err, provider = Rejected err → r = (AuthScreen.Form err false, w))
  ∧ (∀ user err, isLogin = false → provider = Resolved user → outage w = Some err →
       r = (AuthScreen.Form err false, w))
  ∧ (AuthScreen.error r.1 ≠ "" → r.2 = w).
Proof.
  unfold AuthScreen.handleSubmit, setDoc.
  destruct isLogin, provider as [user | err]; simpl;
    try destruct (outage w) eqn:Ho; simpl; repeat split; try done; congruence.
Qed.

(** X18. A sign-up that goes through writes one document, the profile
    [data] under the new user's path, holding the e-mail the provider
    reports and the instant; a [get] there yields it; no record of any
    collection of ride requests changes, and the drivers' listing answers
    what it answered before. *)
Theorem sign_up_writes_the_profile_only app_id user now w :
  outage w = None →
  let r := AuthScreen.handleSubmit app_id false (Resolved user) now w in
  r.1 = AuthScreen.Form "" false
  ∧ getDoc (profilePath app_id (uid user)) "data" r.2
    = (Returned (Some (AuthScreen.profile user now)), r.2)
  ∧ AuthScreen.profile user now !! "email" = Some (nullable (email user))
  ∧ AuthScreen.profile user now !! "createdAt" = Some (VTime now)
  ∧ (∀ k, k ≠ (profilePath app_id (uid user), "data") → docs r.2 !! k = docs w !! k)
  ∧ (∀ a id, docs r.2 !! (rideRequests a, id) = docs w !! (rideRequests a, id))
  ∧ (listPending r.2).1 = (listPending w).1.
Proof.
  intros Ho r.
  assert (Hr : r = (AuthScreen.Form "" false,
                    set_docs w (<[(profilePath app_id (uid user), "data") :=
                                   AuthScreen.profile user now]> (docs w)))).
  { subst r. unfold AuthScreen.handleSubmit, setDoc. by rewrite Ho. }
  rewrite Hr. clear r Hr. simpl.
  assert (Hrides : ∀ a id,
    (<[(profilePath app_id (uid user), "data") := AuthScreen.profile user now]> (docs w))
      !! (rideRequests a, id) = docs w !! (rideRequests a, id)).
  { intros a id. apply lookup_insert_ne. intros Hp%(f_equal fst).
    by apply profilePath_not_rideRequests in Hp. }
  assert (Hp : pending (set_docs w (<[(profilePath app_id (uid user), "data") :=
                                      AuthScreen.profile user now]> (docs w)))
               = pending w).
  { apply map_eq. intros k. apply option_eq. intros d.
    rewrite !pending_lookup. simpl.
    split; intros (Hd & Hc & Hs); (split; [| done]); destruct k as [c id];
      simpl in *; subst c; by rewrite Hrides in *. }
  split; [done |].
  split; [by unfold getDoc; simpl; rewrite Ho, lookup_insert_eq |].
  split; [by unfold AuthScreen.profile; simplify_map_eq |].
  split; [by unfold AuthScreen.profile; simplify_map_eq |].
  split; [by intros k Hk; rewrite lookup_insert_ne |].
  split; [done |].
  rewrite !listPending_cases, Hp. simpl. by rewrite Ho.
Qed.

End Accounts.

Section Screens.
Context `{JSNumber}.

Implicit Types (w : world) (d : document).

(** X19. From sign-up to request: after a sign-up that went through, the
    dashboard's listener delivers the profile just written, and a request
    by that rider, in either revision, stores the e-mail the provider
    reported as [riderEmail]. *)
Theorem signed_up_email_reaches_the_request app_id user e now w lat lng now' :
  outage w = None → uid user ≠ "" → email user = Some e → e ≠ "" →
  let w1 := (AuthScreen.handleSubmit app_id false (Resolved user) now w).2 in
  let st := Profile.profileEffect app_id true (Some (uid user)) w1 Profile.initial in
  Profile.profileLoading st = false
  ∧ Profile.userProfile st = Some (AuthScreen.profile user now)
  ∧ (∃ d, docs (App.handleRequestRide app_id true (Some (uid user))
                  (Profile.userProfile st) now' w1).2
            !! (rideRequests app_id, uid user) = Some d
          ∧ d !! "riderEmail" = Some (VStr e))
  ∧ (∃ d, docs (AppGeo.handleRequestRide app_id true (Some (uid user))
                  (Profile.userProfile st) (AppGeo.Position lat lng) now' w1).2
            !! (rideRequests app_id, uid user) = Some d
          ∧ d !! "riderEmail" = Some (VStr e)).
Proof.
  intros Ho Hu He Hne w1 st.
  assert (Hw1 : w1 = set_docs w (<[(profilePath app_id (uid user), "data") :=
                                    AuthScreen.profile user now]> (docs w))).
  { subst w1. unfold AuthScreen.handleSubmit, setDoc. by rewrite Ho. }
  assert (Ho1 : outage w1 = None) by (by rewrite Hw1).
  assert (Hst : st = Profile.State (Some (AuthScreen.profile user now)) false).
  { subst st. unfold Profile.profileEffect, Profile.first_notice.
    rewrite no_user_false, Ho1 by done. simpl.
    rewrite Hw1. simpl. by rewrite lookup_insert_eq. }
  assert (Hmail : riderEmail (Some (AuthScreen.profile user now)) = VStr e).
  { unfold riderEmail, AuthScreen.profile. simpl. rewrite lookup_insert_eq, He. simpl.
    apply String.eqb_neq in Hne. by rewrite Hne. }
  rewrite Hst. cbn [Profile.userProfile Profile.profileLoading].
  split; [done |]. split; [done |].
  rewrite App_request_done, AppGeo_request_done by done.
  cbn [snd set_docs docs]. rewrite !lookup_insert_eq.
  split; eexists; (split; [done |]).
  - by rewrite App_rideRequest_lookup, Hmail.
  - by rewrite AppGeo_rideRequest_lookup, Hmail.
Qed.

(** X20. A rider without a profile document (an anonymous user has none),
    or whose listener reports an error, has no e-mail on the dashboard:
    the profile stays null, the loading sign goes, and the record of a
    request carries N/A. *)
Theorem without_profile_the_email_is_NA app_id u lat lng now w :
  u ≠ "" →
  (outage w = None → docs w !! (profilePath app_id u, "data") = None) →
  let st := Profile.profileEffect app_id true (Some u) w Profile.initial in
  Profile.profileLoading st = false
  ∧ Profile.userProfile st = None
  ∧ App.rideRequest u (Profile.userProfile st) now !! "riderEmail" = Some (VStr "N/A")
  ∧ AppGeo.rideRequest u (Profile.userProfile st) lat lng now !! "riderEmail"
    = Some (VStr "N/A").
Proof.
  intros Hu Hnone st.
  assert (Hst : st = Profile.State None false).
  { subst st. unfold Profile.profileEffect, Profile.first_notice.
    rewrite no_user_false by done. simpl.
    destruct (outage w); [done |]. by rewrite Hnone. }
  rewrite Hst. simpl.
  by rewrite App_rideRequest_lookup, AppGeo_rideRequest_lookup.
Qed.



(** X22. The loading screen is what [App] shows until the first
    notification of the auth state and never after it; when the
    initialization failed no notification comes, and although the [catch]
    clears [loading] the loading screen stays. *)
Theorem loading_screen_until_first_notice st :
  Shell.arises st →
  (Shell.render st = Shell.ShowLoading
   ↔ st = Shell.mount true Shell.initial ∨ st = Shell.mount false Shell.initial)
  ∧ Shell.render (Shell.mount false Shell.initial) = Shell.ShowLoading
  ∧ Shell.loading (Shell.mount false Shell.initial) = false.
Proof.
  intros Hst. split; [| done].
  destruct Hst as [[] | cu fails st _ Hi]; [split; auto | split; auto |].
  assert (Hr : Shell.render (Shell.onAuthStateChanged cu fails st) ≠ Shell.ShowLoading).
  { unfold Shell.render. destruct cu as [cu|], fails; simpl; rewrite Hi; simpl;
      try done. by destruct (Shell.user st). }
  split; [done |]. intros [Heq | Heq].
  - apply (f_equal Shell.loading) in Heq. by destruct cu as [cu|], fails.
  - apply (f_equal Shell.firebaseInitialized) in Heq.
    destruct cu as [cu|], fails; simpl in Heq; congruence.
Qed.

End Screens.

(** * The further properties at work on the scenario *)

Lemma onboarding_down_outage : outage Onboarding.down = Some "UNAVAILABLE".
Proof. reflexivity. Qed.

Lemma scenario_requested_up : outage Scenario.requested = None.
Proof. vm_compute. reflexivity. Qed.

Lemma scenario_alice_passes : body_rejected Scenario.alice = false.
Proof. vm_compute. reflexivity. Qed.

Lemma scenario_bob_passes : body_rejected Scenario.bob = false.
Proof. vm_compute. reflexivity. Qed.

(** The backend is down: the three routes answer 500. *)
Lemma outage_is_500_and_writes_nothing_witness :
  outage Onboarding.down = Some "UNAVAILABLE"
  ∧ res_status (listPending Onboarding.down).1 = 500
  ∧ res_status (completeRide 300 "rider1" Onboarding.down).1 = 500
  ∧ acceptRide 200 "rider1" Scenario.alice Onboarding.down
    = (Response 500 (Failure "Failed to accept ride request" (Some "UNAVAILABLE")),
       Onboarding.down).
Proof.
  split; [exact onboarding_down_outage |].
  destruct (outage_is_500_and_writes_nothing 300 "rider1" Scenario.alice
              Onboarding.down "UNAVAILABLE" onboarding_down_outage) as (Hl & Hc & _).
  destruct (outage_is_500_and_writes_nothing 200 "rider1" Scenario.alice
              Onboarding.down "UNAVAILABLE" onboarding_down_outage) as (_ & _ & Ha).
  rewrite Hl, Hc, Ha, scenario_alice_passes. repeat split.
Defined.

(** Alice accepts the pending ride: the rider's members stay. *)
Lemma accept_changes_five_members_witness :
  (outage Scenario.requested = None ∧ body_rejected Scenario.alice = false
   ∧ docs Scenario.requested !! (rideRequests APP_ID, "rider1")
     = Some Scenario.ride_requested)
  ∧ ∃ d', docs (acceptRide 200 "rider1" Scenario.alice Scenario.requested).2
            !! (rideRequests APP_ID, "rider1") = Some d'
          ∧ d' !! "driverName" = Some (VStr "Alice")
          ∧ d' !! "riderId" = Some (VStr "rider1").
Proof.
  split; [split; [exact scenario_requested_up |];
          split; [exact scenario_alice_passes | exact scenario_requested_ride] |].
  destruct (accept_changes_five_members 200 "rider1" Scenario.alice Scenario.requested
              Scenario.ride_requested scenario_requested_up scenario_alice_passes
              scenario_requested_ride)
    as (d' & Hrun & _ & _ & Hn & _ & _ & Hrest & _).
  exists d'. rewrite Hrun. simpl. rewrite lookup_insert_eq. split; [done |].
  split.
  - rewrite Hn. vm_compute. reflexivity.
  - rewrite Hrest.
    + vm_compute. reflexivity.
    + rewrite in_accept_members. intros [? | [? | [? | [? | ?]]]]; discriminate.
Defined.

(** After Alice's accept the listing is empty. *)
Lemma answered_ride_leaves_the_listing_witness :
  (outage Scenario.requested = None
   ∧ docs Scenario.requested !! (rideRequests APP_ID, "rider1")
     = Some Scenario.ride_requested
   ∧ body_rejected Scenario.alice = false)
  ∧ ∃ l, listPending (acceptRide 200 "rider1" Scenario.alice Scenario.requested).2
         = (Response 200 (Rides l),
            (acceptRide 200 "rider1" Scenario.alice Scenario.requested).2)
         ∧ length l = 0.
Proof.
  split; [split; [exact scenario_requested_up |];
          split; [exact scenario_requested_ride | exact scenario_alice_passes] |].
  destruct (answered_ride_leaves_the_listing 200 "rider1" Scenario.alice
              Scenario.requested Scenario.ride_requested scenario_requested_up
              scenario_requested_ride scenario_alice_passes)
    as (_ & _ & (l & Hl & Hlen) & _).
  exists l. split; [exact Hl |]. rewrite Hlen. vm_compute. reflexivity.
Defined.

(** Bob accepts after Alice: as if Alice had not. *)
Lemma later_accept_wins_witness :
  body_rejected Scenario.bob = false
  ∧ acceptRide 250 "rider1" Scenario.bob
      (acceptRide 200 "rider1" Scenario.alice Scenario.requested).2
    = acceptRide 250 "rider1" Scenario.bob Scenario.requested.
Proof.
  split; [exact scenario_bob_passes |].
  exact (later_accept_wins 200 Scenario.alice 250 Scenario.bob "rider1"
           Scenario.requested scenario_bob_passes).
Defined.

(** Accept and complete on the pending ride, in both orders. *)
Lemma accept_and_complete_in_either_order_witness :
  (outage Scenario.requested = None
   ∧ docs Scenario.requested !! (rideRequests APP_ID, "rider1")
     = Some Scenario.ride_requested
   ∧ body_rejected Scenario.alice = false)
  ∧ ∃ d2,
      docs (acceptRide 200 "rider1" Scenario.alice
              (completeRide 300 "rider1" Scenario.requested).2).2
        !! (rideRequests APP_ID, "rider1") = Some d2
      ∧ status_of d2 = Some "accepted"
      ∧ d2 !! "completedAt" = Some (VTime 300).
Proof.
  split; [split; [exact scenario_requested_up |];
          split; [exact scenario_requested_ride | exact scenario_alice_passes] |].
  destruct (accept_and_complete_in_either_order 200 300 "rider1" Scenario.alice
              Scenario.requested Scenario.ride_requested scenario_requested_up
              scenario_requested_ride scenario_alice_passes)
    as (d1 & d2 & _ & H2 & _ & Hs & Hc & _).
  exists d2. split; [exact H2 |]. split; [exact Hs | exact Hc].
Defined.

(** Nobody is signed in. *)
Lemma request_without_login_writes_nothing_witness :
  negb true || no_user None = true
  ∧ AppGeo.handleRequestRide APP_ID true None None (AppGeo.Position Onboarding.latitude Onboarding.longitude)
      100 Scenario.requested
    = ([AppGeo.Notify "error" "Please log in to request a ride."], Scenario.requested).
Proof.
  split; [reflexivity |].
  destruct (request_without_login_writes_nothing APP_ID true None None
              (AppGeo.Position Onboarding.latitude Onboarding.longitude) 100 Scenario.requested eq_refl)
    as (_ & Hgeo).
  exact Hgeo.
Defined.

(** The rider asks again while the backend is down. *)
Lemma request_during_outage_is_reported_witness :
  (outage Onboarding.down = Some "UNAVAILABLE" ∧ "rider1" ≠ "")
  ∧ App.handleRequestRide APP_ID true (Some "rider1") None 250 Onboarding.down
    = (["Requesting ride..."; "Failed to request ride: UNAVAILABLE"], Onboarding.down).
Proof.
  assert (Hu : "rider1" ≠ "") by discriminate.
  split; [split; [exact onboarding_down_outage | exact Hu] |].
  destruct (request_during_outage_is_reported APP_ID "rider1" None Onboarding.latitude Onboarding.longitude 250
              Onboarding.down "UNAVAILABLE" onboarding_down_outage Hu) as (Happ & _).
  exact Happ.
Defined.

(** The first request in an empty store. *)
Lemma requested_ride_is_pending_witness :
  (outage empty_world = None ∧ "rider1" ≠ "")
  ∧ pending (AppGeo.handleRequestRide APP_ID true (Some "rider1") None
               (AppGeo.Position Onboarding.latitude Onboarding.longitude) 100 empty_world).2
    = <[(rideRequests APP_ID, "rider1") :=
          AppGeo.rideRequest "rider1" None Onboarding.latitude Onboarding.longitude 100]> (pending empty_world).
Proof.
  assert (Hu : "rider1" ≠ "") by discriminate.
  split; [split; [reflexivity | exact Hu] |].
  destruct (requested_ride_is_pending "rider1" None Onboarding.latitude Onboarding.longitude 100 empty_world
              eq_refl Hu) as (_ & Hgeo).
  exact Hgeo.
Defined.

(** A dashboard under another app id. *)
Lemma request_under_other_app_id_is_unseen_witness :
  Onboarding.elsewhere ≠ APP_ID
  ∧ (listPending (App.handleRequestRide Onboarding.elsewhere true (Some "rider2")
                    None 250 Scenario.requested).2).1
    = (listPending Scenario.requested).1.
Proof.
  assert (Hne : Onboarding.elsewhere ≠ APP_ID) by discriminate.
  split; [exact Hne |].
  destruct (request_under_other_app_id_is_unseen Onboarding.elsewhere true
              (Some "rider2") None AppGeo.Unsupported 250 Scenario.requested Hne)
    as (_ & _ & Hl & _).
  exact Hl.
Defined.

(** The rider asks twice; a third time the browser has no position. *)
Lemma later_request_wins_witness :
  "rider1" ≠ ""
  ∧ App.handleRequestRide APP_ID true (Some "rider1") None 250
      (App.handleRequestRide APP_ID true (Some "rider1") None 100 Scenario.accepted).2
    = App.handleRequestRide APP_ID true (Some "rider1") None 250 Scenario.accepted
  ∧ (AppGeo.handleRequestRide APP_ID true (Some "rider1") None AppGeo.Unsupported 250
       (App.handleRequestRide APP_ID true (Some "rider1") None 100 Scenario.accepted).2).2
    = (App.handleRequestRide APP_ID true (Some "rider1") None 100 Scenario.accepted).2.
Proof.
  assert (Hu : "rider1" ≠ "") by discriminate.
  split; [exact Hu |].
  destruct (later_request_wins APP_ID "rider1" true None AppGeo.Unsupported 100
              None Onboarding.latitude Onboarding.longitude 250 Scenario.accepted
              (App.handleRequestRide APP_ID true (Some "rider1") None 100
                 Scenario.accepted).2 Hu (or_introl eq_refl)) as (Happ & _ & Hun & _).
  split; [exact Happ | exact Hun].
Defined.

(** The rider signs up while a ride is pending. *)
Lemma sign_up_writes_the_profile_only_witness :
  outage Scenario.requested = None
  ∧ getDoc (profilePath APP_ID "rider1") "data"
      (AuthScreen.handleSubmit APP_ID false (Resolved Onboarding.rider) 50
         Scenario.requested).2
    = (Returned (Some (AuthScreen.profile Onboarding.rider 50)),
       (AuthScreen.handleSubmit APP_ID false (Resolved Onboarding.rider) 50
          Scenario.requested).2)
  ∧ docs (AuthScreen.handleSubmit APP_ID false (Resolved Onboarding.rider) 50
            Scenario.requested).2 !! (rideRequests APP_ID, "rider1")
    = docs Scenario.requested !! (rideRequests APP_ID, "rider1").
Proof.
  split; [exact scenario_requested_up |].
  destruct (sign_up_writes_the_profile_only APP_ID Onboarding.rider 50
              Scenario.requested scenario_requested_up)
    as (_ & Hget & _ & _ & _ & Hrides & _).
  split; [exact Hget | exact (Hrides APP_ID "rider1")].
Defined.

(** Sign-up, dashboard, request. *)
Lemma signed_up_email_reaches_the_request_witness :
  (outage empty_world = None ∧ uid Onboarding.rider ≠ ""
   ∧ email Onboarding.rider = Some "a@x.com" ∧ "a@x.com" ≠ "")
  ∧ ∃ d, docs (AppGeo.handleRequestRide APP_ID true (Some "rider1")
                 (Profile.userProfile
                    (Profile.profileEffect APP_ID true (Some "rider1")
                       Onboarding.signed_up Profile.initial))
                 (AppGeo.Position Onboarding.latitude Onboarding.longitude) 100 Onboarding.signed_up).2
           !! (rideRequests APP_ID, "rider1") = Some d
         ∧ d !! "riderEmail" = Some (VStr "a@x.com").
Proof.
  assert (Hu : uid Onboarding.rider ≠ "") by discriminate.
  assert (He : "a@x.com" ≠ "") by discriminate.
  split; [repeat split; done |].
  destruct (signed_up_email_reaches_the_request APP_ID Onboarding.rider "a@x.com" 50
              empty_world Onboarding.latitude Onboarding.longitude 100 eq_refl Hu eq_refl He)
    as (_ & _ & _ & Hgeo).
  exact Hgeo.
Defined.

(** A rider who never signed up. *)
Lemma without_profile_the_email_is_NA_witness :
  ("rider2" ≠ ""
   ∧ docs Onboarding.signed_up !! (profilePath APP_ID "rider2", "data") = None)
  ∧ Profile.userProfile
      (Profile.profileEffect APP_ID true (Some "rider2") Onboarding.signed_up
         Profile.initial) = None.
Proof.
  assert (Hu : "rider2" ≠ "") by discriminate.
  assert (Hn : docs Onboarding.signed_up !! (profilePath APP_ID "rider2", "data") = None)
    by (vm_compute; reflexivity).
  split; [split; [exact Hu | exact Hn] |].
  destruct (without_profile_the_email_is_NA APP_ID "rider2" Onboarding.latitude Onboarding.longitude 100
              Onboarding.signed_up Hu (fun _ => Hn)) as (_ & Hp & _).
  exact Hp.
Defined.

Lemma onboarding_on_dashboard_arises : Shell.arises Onboarding.on_dashboard.
Proof. unfold Onboarding.on_dashboard. by repeat constructor. Qed.


(** Once the rider is announced the loading screen is gone. *)
Lemma loading_screen_until_first_notice_witness :
  Shell.arises Onboarding.on_dashboard
  ∧ (Shell.render Onboarding.on_dashboard = Shell.ShowLoading
     ↔ Onboarding.on_dashboard = Shell.mount true Shell.initial
       ∨ Onboarding.on_dashboard = Shell.mount false Shell.initial).
Proof.
  split; [exact onboarding_on_dashboard_arises |].
  destruct (loading_screen_until_first_notice Onboarding.on_dashboard
              onboarding_on_dashboard_arises) as (Hiff & _).
  exact Hiff.
Defined.

(** After the sign-up and the request: the ride is stored and listed
    under its rider. *)
Lemma record_is_stored_under_its_rider_witness :
  (reachable Onboarding.asked ∧ outage Onboarding.asked = None)
  ∧ Scenario.ride_requested !! "riderId" = Some (VStr "rider1")
  ∧ ∃ l, listPending Onboarding.asked = (Response 200 (Rides l), Onboarding.asked)
         ∧ ∃ e, e ∈ l ∧ e !! "id" = Some (VStr "rider1")
                ∧ e !! "riderId" = Some (VStr "rider1").
Proof.
  split; [split; [exact onboarding_asked_reachable | exact onboarding_asked_up] |].
  destruct (record_is_stored_under_its_rider Onboarding.asked
              onboarding_asked_reachable) as (Hall & Hlist).
  split; [exact (Hall APP_ID "rider1" Scenario.ride_requested onboarding_asked_ride) |].
  destruct (Hlist onboarding_asked_up) as (l & Hl & Hpending & _).
  exists l. split; [exact Hl |].
  apply (Hpending "rider1" Scenario.ride_requested onboarding_asked_ride).
  vm_compute. reflexivity.
Defined.

(** After the sign-up: the accepted ride names Alice. *)
Lemma accepted_record_names_its_driver_witness :
  (reachable Onboarding.taken
   ∧ docs Onboarding.taken !! (rideRequests APP_ID, "rider1")
     = Some Scenario.ride_accepted
   ∧ status_of Scenario.ride_accepted = Some "accepted")
  ∧ ∃ v, Scenario.ride_accepted !! "driverName" = Some v ∧ truthy v = true.
Proof.
  assert (Hs : status_of Scenario.ride_accepted = Some "accepted")
    by (vm_compute; reflexivity).
  split; [split; [exact onboarding_taken_reachable |];
          split; [exact onboarding_taken_ride | exact Hs] |].
  apply (accepted_record_names_its_driver Onboarding.taken (rideRequests APP_ID, "rider1")
           Scenario.ride_accepted onboarding_taken_reachable onboarding_taken_ride Hs).
  rewrite !elem_of_cons. auto.
Defined.
